(** * [BBoxHead] (detection/models/bbox_heads/bbox_head.py)

    A shallow embedding of [BBoxHead.get_bboxes],
    [BBoxHead._get_bboxes_single] and [BBoxHead.__call__].

    - float32 values are idealised as exact rationals ([Q]);
    - the module detection.core.bbox.transforms is not among the source
      files: the decoder is parameterised by it, and the module as the spec
      describes it is parameterised by the exponential;
    - in the decoder tensors are lists (rank 1) and lists of rows (rank 2);
      of the tensor library's run-time checks, those on indices, on an empty
      reduction axis, on [k], on the threshold and the output size of the
      suppression, on the lengths of the tensors [tf.map_fn] stacks and on
      the ranks of the operands of a set intersection are modelled;
    - in the forward pass a tensor carries its shape, and the Keras layers,
      which hold trained weights, are parameters;
    - Python exceptions and TensorFlow op errors are values of [exn], and the
      code runs in the error monad [result];
    - the names the function body reads from the module namespace ([tf],
      [transforms], [deltas], [config]) are looked up in an explicit
      namespace [gmap string pyval], as Python's LOAD_GLOBAL does.
      [module_globals] is the namespace bbox_head.py itself builds; what the
      function does there, and what its pipeline does in any namespace, are
      stated separately. *)

From stdpp Require Import base option list sorting gmap strings.
From Stdlib Require Import QArith Qminmax Lqa Lia.

Local Open Scope Q_scope.

(** ** Exceptions and the error monad *)

Inductive exn :=
  | NameError (name : string)
  | AttributeError (attr : string)
  | TypeError
  | IndexError
  | ZeroDivisionError
  | InvalidArgumentError.

Inductive result (A : Type) :=
  | Ok (a : A)
  | Raise (e : exn).
Arguments Ok {A} a.
Arguments Raise {A} e.

Definition bind {A B} (m : result A) (f : A → result B) : result B :=
  match m with
  | Ok a => f a
  | Raise e => Raise e
  end.

Notation "x <- m ; k" := (bind m (λ x, k))
  (at level 20, m at level 100, k at level 200, only parsing).
Notation "' p <- m ; k" := (bind m (λ p, k))
  (at level 20, p pattern, m at level 100, k at level 200, only parsing).

Definition returns {A} (m : result A) : Prop := ∃ a, m = Ok a.

(** ** Python values found in a module namespace *)

Record box := Box { y1 : Q; x1 : Q; y2 : Q; x2 : Q }.

(** (dy, dx, log(dh), log(dw)); [target_means] and [target_stds] have the
    same four components. *)
Record delta := Delta { dy : Q; dx : Q; dh : Q; dw : Q }.

Inductive pyval :=
  | PyModule (name : string)
  | PyClass (name : string)
  | PyInt (z : Z)
  | PyTensor (t : list (list delta))
  | PyObject (attrs : list (string * Z)).

Abbreviation namespace := (gmap string pyval).

(** The names bound at module level by bbox_head.py: lines 1, 2, 4 and 6.
    Python's builtins, searched next, hold neither [deltas] nor [config]. *)
Definition module_globals : namespace :=
  <["tf" := PyModule "tensorflow"]>
  (<["layers" := PyModule "tensorflow.keras.layers"]>
  (<["transforms" := PyModule "detection.core.bbox.transforms"]>
  (<["BBoxHead" := PyClass "BBoxHead"]> ∅))).

Definition load_global (g : namespace) (name : string) : result pyval :=
  match g !! name with
  | Some v => Ok v
  | None => Raise (NameError name)
  end.

(** A global name used as a module: [tf.argmax], [transforms.delta2bbox]. *)
Definition load_module (g : namespace) (name qualified : string) : result unit :=
  v <- load_global g name ;
  match v with
  | PyModule m => if decide (m = qualified) then Ok () else Raise (AttributeError name)
  | _ => Raise (AttributeError name)
  end.

Fixpoint assoc (attrs : list (string * Z)) (a : string) : option Z :=
  match attrs with
  | [] => None
  | (k, v) :: rest => if decide (k = a) then Some v else assoc rest a
  end.

(** Attribute access on an object whose attributes are integers. *)
Definition getattr (v : pyval) (a : string) : result Z :=
  match v with
  | PyObject attrs =>
      match assoc attrs a with
      | Some x => Ok x
      | None => Raise (AttributeError a)
      end
  | _ => Raise (AttributeError a)
  end.

Definition as_tensor (v : pyval) : result (list (list delta)) :=
  match v with
  | PyTensor t => Ok t
  | _ => Raise TypeError
  end.

(** ** Comparisons on rationals *)

Definition Qlt_bool (a b : Q) : bool := negb (Qle_bool b a).

Definition Qeq_zero (a : Q) : bool := Qeq_bool a 0.

(** ** TensorFlow primitives *)

(** [tf.argmax] along the class axis: the first index holding the maximum;
    an empty reduction axis is an error. *)
Fixpoint argmax_from (best : nat) (bestv : Q) (i : nat) (row : list Q) : nat :=
  match row with
  | [] => best
  | v :: rest =>
      if Qlt_bool bestv v then argmax_from i v (S i) rest
      else argmax_from best bestv (S i) rest
  end.

Definition argmax (row : list Q) : result nat :=
  match row with
  | [] => Raise InvalidArgumentError
  | v :: rest => Ok (argmax_from 0%nat v 1%nat rest)
  end.

(** Monadic map over a list, left to right. *)
Fixpoint map_result {A B} (f : A → result B) (l : list A) : result (list B) :=
  match l with
  | [] => Ok []
  | a :: rest => b <- f a ; bs <- map_result f rest ; Ok (b :: bs)
  end.

(** [tf.gather(params, indices)]; an index out of range is an error. *)
Definition gather {A} (params : list A) (indices : list nat) : result (list A) :=
  map_result (λ i, match params !! i with
                   | Some a => Ok a
                   | None => Raise InvalidArgumentError
                   end) indices.

(** [tf.gather_nd(params, indices)] with index pairs (row, column). *)
Definition gather_nd {A} (params : list (list A)) (indices : list (nat * nat))
    : result (list A) :=
  map_result (λ ij, match params !! ij.1 ≫= (λ row, row !! ij.2) with
                    | Some a => Ok a
                    | None => Raise InvalidArgumentError
                    end) indices.

(** [tf.where(mask)[:, 0]]: the positions holding [true], ascending. *)
Fixpoint where_from (i : nat) (mask : list bool) : list nat :=
  match mask with
  | [] => []
  | b :: rest => if b then i :: where_from (S i) rest else where_from (S i) rest
  end.

Definition tf_where (mask : list bool) : list nat := where_from 0 mask.

Definition memb (i : nat) (l : list nat) : bool := existsb (Nat.eqb i) l.

(** [tf.sparse_tensor_to_dense(tf.sets.set_intersection(a[None], b[None]))[0]]:
    the common elements, each once, in ascending order. *)
Definition set_intersection (a b : list nat) : list nat :=
  List.filter (λ i, memb i a && memb i b) (seq 0 (S (max_list a))).

(** [tf.unique(x)[0]]: the distinct values in order of first occurrence. *)
Fixpoint unique (l : list nat) : list nat :=
  match l with
  | [] => []
  | x :: rest => x :: List.filter (λ y, negb (Nat.eqb x y)) (unique rest)
  end.

(** [tf.map_fn(fn, elems, dtype=tf.int64)]: [fn] on every element in turn,
    the results stacked into one tensor, a row per element; results of
    different lengths cannot be stacked.  Without elements the result is
    empty. *)
Definition map_fn {A} (fn : A → result (list nat)) (elems : list A)
    : result (list (list nat)) :=
  rows <- map_result fn elems ;
  match rows with
  | [] => Ok []
  | r :: rest =>
      if forallb (λ r', Nat.eqb (length r') (length r)) rest then Ok rows
      else Raise InvalidArgumentError
  end.

(** The rank of what [tf.map_fn] returns: 2 once there is a row, 1 for the
    empty result. *)
Definition stack_rank (rows : list (list nat)) : nat :=
  match rows with
  | [] => 1
  | _ :: _ => 2
  end.

(** Stable insertion sort by descending score of (payload, score) pairs. *)
Fixpoint insert_desc {A} (x : A * Q) (l : list (A * Q)) : list (A * Q) :=
  match l with
  | [] => [x]
  | y :: rest =>
      if Qlt_bool x.2 y.2 then y :: insert_desc x rest else x :: y :: rest
  end.

Definition sort_desc {A} (l : list (A * Q)) : list (A * Q) :=
  foldr insert_desc [] l.

(** [tf.nn.top_k(values, k, sorted=True)[1]]: positions of the [k] largest
    values, largest first, the lower position first among equal values. *)
Definition top_k (values : list Q) (k : Z) : result (list nat) :=
  if (k <? 0)%Z then Raise InvalidArgumentError
  else if (Z.of_nat (length values) <? k)%Z then Raise InvalidArgumentError
  else Ok (take (Z.to_nat k) (sort_desc (zip (seq 0 (length values)) values)).*1).

(** The overlap measure of [tf.image.non_max_suppression]: the corners of
    each box are ordered first, and a box without area overlaps nothing. *)
Definition span (p q : Q) : Q := Qmax p q - Qmin p q.

Definition overlap (p q r s : Q) : Q :=
  Qmax (Qmin (Qmax p q) (Qmax r s) - Qmax (Qmin p q) (Qmin r s)) 0.

Definition area (b : box) : Q := span (y1 b) (y2 b) * span (x1 b) (x2 b).

Definition intersection_area (a b : box) : Q :=
  overlap (y1 a) (y2 a) (y1 b) (y2 b) * overlap (x1 a) (x2 a) (x1 b) (x2 b).

Definition iou (a b : box) : Q :=
  if Qle_bool (area a) 0 || Qle_bool (area b) 0 then 0
  else intersection_area a b / (area a + area b - intersection_area a b).

(** Greedy selection over candidates already ordered by descending score:
    a candidate is dropped when its IoU with a selected box exceeds the
    threshold. *)
Fixpoint nms_select (iou_threshold : Q) (max_output_size : Z)
    (candidates selected : list (nat * box)) : list (nat * box) :=
  match candidates with
  | [] => selected
  | c :: rest =>
      if (Z.of_nat (length selected) <? max_output_size)%Z then
        if existsb (λ s, Qlt_bool iou_threshold (iou c.2 s.2)) selected
        then nms_select iou_threshold max_output_size rest selected
        else nms_select iou_threshold max_output_size rest (selected ++ [c])
      else selected
  end.

(** [tf.image.non_max_suppression(boxes, scores, max_output_size,
    iou_threshold)]: positions of the selected boxes, best score first.  A
    negative [max_output_size] and a threshold outside [0, 1] are errors. *)
Definition non_max_suppression (boxes : list box) (scores : list Q)
    (max_output_size : Z) (iou_threshold : Q) : result (list nat) :=
  if negb (Nat.eqb (length boxes) (length scores)) then Raise InvalidArgumentError
  else if (max_output_size <? 0)%Z then Raise InvalidArgumentError
  else if Qlt_bool iou_threshold 0 || Qlt_bool 1 iou_threshold
  then Raise InvalidArgumentError
  else
    let order := (sort_desc (zip (zip (seq 0 (length boxes)) boxes) scores)).*1 in
    Ok (nms_select iou_threshold max_output_size order []).*1.

(** ** The box transforms

    detection/core/bbox/transforms.py is not among the source files.  The
    decoder takes the two functions it calls there as a parameter;
    [spec_transforms] below is the module as the spec describes it. *)

Record transforms_module := {
  delta2bbox : list box → list delta → delta → delta → result (list box);
  bbox_clip : list box → box → result (list box)
}.

Section SpecTransforms.

(** The exponential of the tensor library. *)
Variable exp : Q → Q.

(** Modelled from the spec: [transforms.delta2bbox] of
    detection/core/bbox/transforms.py, one region at a time (spec 4.1,
    [decode(region, delta, means, stds)]): undo the standardisation, move the
    centre by the scaled offsets, scale the size by the exponential, and
    return to corner form. *)
Definition decode (region : box) (d means stds : delta) : box :=
  let dy' := dy d * dy stds + dy means in
  let dx' := dx d * dx stds + dx means in
  let dh' := dh d * dh stds + dh means in
  let dw' := dw d * dw stds + dw means in
  let height := y2 region - y1 region in
  let width := x2 region - x1 region in
  let center_y := y1 region + (1 # 2) * height in
  let center_x := x1 region + (1 # 2) * width in
  let center_y' := center_y + dy' * height in
  let center_x' := center_x + dx' * width in
  let height' := height * exp dh' in
  let width' := width * exp dw' in
  let ny1 := center_y' - (1 # 2) * height' in
  let nx1 := center_x' - (1 # 2) * width' in
  Box ny1 nx1 (ny1 + height') (nx1 + width').

(** Modelled from the spec: the batched [transforms.delta2bbox]; the region
    counts of its two tensors must agree (spec 7, ShapeMismatch). *)
Fixpoint decode_all (rois : list box) (deltas : list delta) (means stds : delta)
    : result (list box) :=
  match rois, deltas with
  | [], [] => Ok []
  | r :: rois', d :: deltas' =>
      bs <- decode_all rois' deltas' means stds ; Ok (decode r d means stds :: bs)
  | _, _ => Raise InvalidArgumentError
  end.

(** Modelled from the spec: [transforms.bbox_clip] (spec 4.1, [clip]): each
    coordinate is clamped on its own into the window; the caller's window is
    (0, 0, H/H, W/W), so the range is the spec's [0, ratio]. *)
Definition clamp (v lo hi : Q) : Q := Qmax (Qmin v hi) lo.

Definition clip (b window : box) : box :=
  Box (clamp (y1 b) (y1 window) (y2 window)) (clamp (x1 b) (x1 window) (x2 window))
      (clamp (y2 b) (y1 window) (y2 window)) (clamp (x2 b) (x1 window) (x2 window)).

(** Modelled from the spec: the module detection.core.bbox.transforms. *)
Definition spec_transforms : transforms_module := {|
  delta2bbox := decode_all;
  bbox_clip := λ boxes window, Ok ((λ b, clip b window) <$> boxes)
|}.

End SpecTransforms.

(** ** The head's decoding parameters (constructor, lines 7-24)

    [pool_size] and the layers take no part in decoding. *)

Record BBoxHead := {
  num_classes : nat;
  min_confidence : option Q;   (* None, or a float *)
  nms_threshold : Q;
  max_instances : Z;
  target_means : delta;
  target_stds : delta
}.

Definition default_head (n : nat) : BBoxHead := {|
  num_classes := n;
  min_confidence := Some (7 # 10);
  nms_threshold := 3 # 10;
  max_instances := 100;
  target_means := Delta 0 0 0 0;
  target_stds := Delta (1 # 10) (1 # 10) (2 # 10) (2 # 10)
|}.


(** Python truth value of [self.min_confidence] (line 131). *)
Definition truthy (c : option Q) : bool :=
  match c with
  | None => false
  | Some q => negb (Qeq_zero q)
  end.

(** One row of the result tensor: (y1, x1, y2, x2, class_id, score). *)
Record detection := Detection {
  det_y1 : Q; det_x1 : Q; det_y2 : Q; det_x2 : Q;
  det_class_id : Q; det_score : Q
}.

Definition to_float (n : nat) : Q := inject_Z (Z.of_nat n).

Definition py_div (a b : Q) : result Q :=
  if Qeq_zero b then Raise ZeroDivisionError else Ok (a / b).

(** ** [_get_bboxes_single], stage by stage *)

Section Decoder.

(** The module bound to the name [transforms]. *)
Variable transforms : transforms_module.

(** Lines 114-117: top class and its probability for every region. *)
Definition top_classes (g : namespace) (rcnn_probs : list (list Q))
    : result (list nat * list (nat * nat) * list Q) :=
  _ <- load_module g "tf" "tensorflow" ;
  class_ids <- map_result argmax rcnn_probs ;
  let indices := zip (seq 0 (length rcnn_probs)) class_ids in
  class_scores <- gather_nd rcnn_probs indices ;
  Ok (class_ids, indices, class_scores).

(** Lines 119-126: class-specific deltas, decoding and clipping.  Line 119
    reads the global name [deltas]; the parameter [rcnn_deltas] is not read. *)
Definition refine (g : namespace) (head : BBoxHead) (indices : list (nat * nat))
    (rcnn_deltas : list (list delta)) (rois : list box) (img_shape : Q * Q)
    : result (list box) :=
  let '(H, W) := img_shape in
  deltas <- load_global g "deltas" ;
  deltas <- as_tensor deltas ;
  deltas_specific <- gather_nd deltas indices ;
  _ <- load_module g "transforms" "detection.core.bbox.transforms" ;
  refined_rois <- delta2bbox transforms rois deltas_specific
                    (target_means head) (target_stds head) ;
  wy2 <- py_div H H ;
  wx2 <- py_div W W ;
  let window := Box 0 0 wy2 wx2 in
  bbox_clip transforms refined_rois window.

(** Lines 128-135: drop background regions and, when [min_confidence] is
    truthy, regions scoring below it. *)
Definition candidate_keep (head : BBoxHead) (class_ids : list nat)
    (class_scores : list Q) : list nat :=
  let keep := tf_where ((λ c, negb (Nat.eqb c 0)) <$> class_ids) in
  if truthy (min_confidence head) then
    let conf_keep :=
      tf_where ((λ s, Qle_bool (default 0 (min_confidence head)) s) <$> class_scores) in
    set_intersection keep conf_keep
  else keep.

(** Lines 144-156: suppression among the candidates of one class. *)
Definition nms_keep_map (head : BBoxHead) (keep : list nat)
    (pre_nms_class_ids : list nat) (pre_nms_scores : list Q)
    (pre_nms_rois : list box) (class_id : nat) : result (list nat) :=
  let ixs := tf_where (Nat.eqb class_id <$> pre_nms_class_ids) in
  boxes <- gather pre_nms_rois ixs ;
  scores <- gather pre_nms_scores ixs ;
  class_keep <- non_max_suppression boxes scores (max_instances head) (nms_threshold head) ;
  picked <- gather ixs class_keep ;
  gather keep picked.

(** Lines 139-160: suppression class by class; [nms_keep] is the stack
    [tf.map_fn] makes of the results, a row per class. *)
Definition nms_keep_all (head : BBoxHead) (class_ids : list nat)
    (class_scores : list Q) (refined_rois : list box) (keep : list nat)
    : result (list (list nat)) :=
  pre_nms_class_ids <- gather class_ids keep ;
  pre_nms_scores <- gather class_scores keep ;
  pre_nms_rois <- gather refined_rois keep ;
  let unique_pre_nms_class_ids := unique pre_nms_class_ids in
  map_fn
    (nms_keep_map head keep pre_nms_class_ids pre_nms_scores pre_nms_rois)
    unique_pre_nms_class_ids.

(** Lines 139-164: per-class suppression, then the intersection of [keep]
    with [nms_keep].  [tf.sets.set_intersection] wants operands of one rank:
    [tf.expand_dims(keep, 0)] has rank 2, [tf.expand_dims(nms_keep, 0)] one
    more than the stack, which is 3 as soon as there is a class. *)
Definition per_class_nms (head : BBoxHead) (class_ids : list nat)
    (class_scores : list Q) (refined_rois : list box) (keep : list nat)
    : result (list nat) :=
  nms_keep <- nms_keep_all head class_ids class_scores refined_rois keep ;
  if Nat.eqb (S (stack_rank nms_keep)) 2
  then Ok (set_intersection keep (concat nms_keep))
  else Raise InvalidArgumentError.

(** Line 166, [config.DETECTION_MAX_INSTANCES]: reads the global name
    [config], then its attribute. *)
Definition detection_max_instances (g : namespace) : result Z :=
  config <- load_global g "config" ;
  getattr config "DETECTION_MAX_INSTANCES".

(** Lines 166-170: the best [config.DETECTION_MAX_INSTANCES] of what is left. *)
Definition keep_top (g : namespace) (class_scores : list Q) (keep : list nat)
    : result (list nat) :=
  roi_count <- detection_max_instances g ;
  class_scores_keep <- gather class_scores keep ;
  let num_keep := Z.min (Z.of_nat (length class_scores_keep)) roi_count in
  top_ids <- top_k class_scores_keep num_keep ;
  gather keep top_ids.

(** Lines 172-176: the rows of the result, in image coordinates. *)
Definition make_detection (img_shape : Q * Q) (b : box) (c : nat) (s : Q) : detection :=
  let '(H, W) := img_shape in
  Detection (y1 b * H) (x1 b * W) (y2 b * H) (x2 b * W) (to_float c) s.

Definition assemble (img_shape : Q * Q) (refined_rois : list box)
    (class_ids : list nat) (class_scores : list Q) (keep : list nat)
    : result (list detection) :=
  bs <- gather refined_rois keep ;
  cs <- gather class_ids keep ;
  ss <- gather class_scores keep ;
  Ok (zip_with (λ b cs, make_detection img_shape b cs.1 cs.2) bs (zip cs ss)).

Definition _get_bboxes_single (g : namespace) (head : BBoxHead)
    (rcnn_probs : list (list Q)) (rcnn_deltas : list (list delta))
    (rois : list box) (img_shape : Q * Q) : result (list detection) :=
  '(class_ids, indices, class_scores) <- top_classes g rcnn_probs ;
  refined_rois <- refine g head indices rcnn_deltas rois img_shape ;
  let keep := candidate_keep head class_ids class_scores in
  keep <- per_class_nms head class_ids class_scores refined_rois keep ;
  keep <- keep_top g class_scores keep ;
  assemble img_shape refined_rois class_ids class_scores keep.

(** Lines 96-101: one call per entry of [img_meta_list]. *)
Record img_meta := { img_shape : Q * Q }.

Definition index {A} (l : list A) (i : nat) : result A :=
  match l !! i with
  | Some a => Ok a
  | None => Raise IndexError
  end.

Definition get_bboxes (g : namespace) (head : BBoxHead)
    (rcnn_probs_list : list (list (list Q)))
    (rcnn_deltas_list : list (list (list delta)))
    (rois_list : list (list box)) (img_meta_list : list img_meta)
    : result (list (list detection)) :=
  map_result (λ i,
    probs <- index rcnn_probs_list i ;
    deltas <- index rcnn_deltas_list i ;
    rois <- index rois_list i ;
    meta <- index img_meta_list i ;
    _get_bboxes_single g head probs deltas rois (img_shape meta))
    (seq 0 (length img_meta_list)).

End Decoder.

(** ** Notions used to state the properties *)


Definition box_eq (a b : box) : Prop :=
  y1 a == y1 b ∧ x1 a == x1 b ∧ y2 a == y2 b ∧ x2 a == x2 b.

(** No two distinct selected boxes overlap by more than the threshold. *)
Definition separated (thr : Q) (sel : list (nat * box)) : Prop :=
  ∀ x y, x ∈ sel → y ∈ sel → x = y ∨ iou x.2 y.2 <= thr.



(** ** Concrete data *)

(** A rational exponential to run the decoder with: the series up to the
    twelfth power for a non-negative argument, its reciprocal otherwise. *)
Fixpoint exp_horner (n : nat) (k : positive) (x : Q) : Q :=
  match n with
  | O => 1
  | S n' => 1 + x / (Zpos k # 1) * exp_horner n' (Pos.succ k) x
  end.

Definition exp_approx (x : Q) : Q :=
  if Qle_bool 0 x then exp_horner 12 1 x else / exp_horner 12 1 (- x).

(** The module namespace with the two missing names bound. *)
Definition with_names (deltas : list (list delta)) (detection_max : Z)
    (g : namespace) : namespace :=
  <["deltas" := PyTensor deltas]>
  (<["config" := PyObject [("DETECTION_MAX_INSTANCES", detection_max)]]> g).

Definition zero_delta : delta := Delta 0 0 0 0.

(** Three regions, two classes; regions 2 and 3 overlap heavily (spec 8). *)
Definition scenario_probs : list (list Q) :=
  [[9 # 10; 1 # 10]; [5 # 100; 95 # 100]; [1 # 10; 9 # 10]].

Definition scenario_deltas : list (list delta) :=
  [[zero_delta; zero_delta]; [zero_delta; zero_delta]; [zero_delta; zero_delta]].

Definition scenario_rois : list box :=
  [Box 0 0 (1 # 2) (1 # 2);
   Box (1 # 10) (1 # 10) (6 # 10) (6 # 10);
   Box (15 # 100) (1 # 10) (6 # 10) (6 # 10)].

Definition scenario_shape : Q * Q := (480 # 1, 640 # 1).

Definition scenario_globals : namespace :=
  with_names scenario_deltas 100 module_globals.

(** Two regions that are no candidates: the top class of the first is the
    background, the second scores below the default threshold of 0.7. *)
Definition quiet_probs : list (list Q) := [[9 # 10; 1 # 10]; [4 # 10; 6 # 10]].
Definition quiet_deltas : list (list delta) :=
  [[zero_delta; zero_delta]; [zero_delta; zero_delta]].
Definition quiet_rois : list box :=
  [Box 0 0 (1 # 2) (1 # 2); Box (1 # 10) (1 # 10) (6 # 10) (6 # 10)].
Definition quiet_globals : namespace :=
  with_names quiet_deltas 100 module_globals.


Definition sum_list (l : list Q) : Q := foldr Qplus 0 l.

(** ** The forward pass ([__call__], lines 40-79)

    Here a tensor carries its shape and its values in row-major order, so
    that a dimension of size 0 keeps the others.  The six Keras layers the
    constructor builds hold trained weights; they are parameters, and what
    is assumed of them is stated where it is used. *)

Record tensor := Tensor { shape : list nat; values : list Q }.

Definition num_elements (dims : list nat) : nat := foldr Nat.mul 1%nat dims.

Definition well_formed (t : tensor) : Prop :=
  length (values t) = num_elements (shape t).

(** [t.shape[0]] (line 53). *)
Definition first_dim (t : tensor) : result nat :=
  match shape t with
  | [] => Raise IndexError
  | n :: _ => Ok n
  end.

(** [tf.concat(tensors, axis=0)]: a single tensor is returned as it is;
    otherwise the ranks and the dimensions after the first must agree
    (tensors of rank 0, which line 53 has already refused, would give a
    vector). *)
Definition tf_concat (tensors : list tensor) : result tensor :=
  match tensors with
  | [] => Raise InvalidArgumentError
  | [t] => Ok t
  | t :: rest =>
      if forallb (λ u, bool_decide (tail (shape u) = tail (shape t)
                                    ∧ length (shape u) = length (shape t))) rest
      then Ok (Tensor (list_sum ((λ u, hd 1%nat (shape u)) <$> tensors) :: tail (shape t))
                      (concat (values <$> tensors)))
      else Raise InvalidArgumentError
  end.

(** [tf.nn.relu]. *)
Definition relu (x : tensor) : tensor := Tensor (shape x) ((λ v, Qmax v 0) <$> values x).

(** [tf.squeeze(x, axis)]: the dimension removed must be 1. *)
Definition tf_squeeze (x : tensor) (axis : nat) : result tensor :=
  match shape x !! axis with
  | Some 1%nat => Ok (Tensor (delete axis (shape x)) (values x))
  | _ => Raise InvalidArgumentError
  end.

(** The first [count] rows of [size] values each. *)
Fixpoint chunk (count size : nat) (vs : list Q) : list (list Q) :=
  match count with
  | O => []
  | S count' => take size vs :: chunk count' size (drop size vs)
  end.

Section Softmax.

(** The exponential of the tensor library. *)
Variable exp : Q → Q.

(** [tf.nn.softmax] along the last axis: exp(x) / reduce_sum(exp(x)), over
    exact rationals; the rounding and the underflow of float32 are not
    modelled, and only the shape of the result is relied on. *)
Definition softmax_row (row : list Q) : list Q :=
  let e := exp <$> row in (λ v, v / sum_list e) <$> e.

Definition softmax (logits : tensor) : result tensor :=
  match reverse (shape logits) with
  | [] => Raise InvalidArgumentError
  | classes :: outer =>
      Ok (Tensor (shape logits)
            (concat (softmax_row <$> chunk (num_elements outer) classes (values logits))))
  end.

End Softmax.

(** [tf.reshape(x, (-1, d1, ..., dk))]: the first dimension is inferred,
    which needs the others to be non-zero and to divide the size. *)
Definition tf_reshape (x : tensor) (dims : list nat) : result tensor :=
  let total := num_elements (shape x) in
  let given := num_elements dims in
  if decide (given = 0%nat) then Raise InvalidArgumentError
  else if decide (total `mod` given = 0)%nat
  then Ok (Tensor ((total `div` given)%nat :: dims) (values x))
  else Raise InvalidArgumentError.

(** [tf.split(value, size_splits, 0)]: the sizes must add up to the first
    dimension. *)
Fixpoint split_values (size_splits : list nat) (row : nat) (vs : list Q)
    : list (list Q) :=
  match size_splits with
  | [] => []
  | n :: rest => take (n * row) vs :: split_values rest row (drop (n * row) vs)
  end.

Definition tf_split (value : tensor) (size_splits : list nat) : result (list tensor) :=
  match shape value with
  | [] => Raise InvalidArgumentError
  | n :: inner =>
      if decide (list_sum size_splits = n)
      then Ok (zip_with (λ k vs, Tensor (k :: inner) vs) size_splits
                 (split_values size_splits (num_elements inner) (values value)))
      else Raise InvalidArgumentError
  end.

(** The attributes the constructor sets besides the decoding parameters
    (lines 17 and 26-38). *)
Record head_layers := {
  pool_size : nat * nat;
  rcnn_class_conv1 : tensor → result tensor;
  rcnn_class_bn1 : tensor → bool → result tensor;
  rcnn_class_conv2 : tensor → result tensor;
  rcnn_class_bn2 : tensor → bool → result tensor;
  rcnn_class_logits : tensor → result tensor;
  rcnn_delta_fc : tensor → result tensor
}.

Section Forward.

Variable exp : Q → Q.

Variable layers : head_layers.

Definition __call__ (self : BBoxHead) (inputs : list tensor) (training : bool)
    : result (list tensor * list tensor * list tensor) :=
  let pooled_rois_list := inputs in
  num_pooled_rois_list <- map_result first_dim pooled_rois_list ;
  pooled_rois <- tf_concat pooled_rois_list ;
  x <- rcnn_class_conv1 layers pooled_rois ;
  x <- rcnn_class_bn1 layers x training ;
  let x := relu x in
  x <- rcnn_class_conv2 layers x ;
  x <- rcnn_class_bn2 layers x training ;
  let x := relu x in
  x <- tf_squeeze x 2 ;
  x <- tf_squeeze x 1 ;
  logits <- rcnn_class_logits layers x ;
  probs <- softmax exp logits ;
  deltas <- rcnn_delta_fc layers x ;
  deltas <- tf_reshape deltas [num_classes self; 4%nat] ;
  rcnn_class_logits_list <- tf_split logits num_pooled_rois_list ;
  rcnn_probs_list <- tf_split probs num_pooled_rois_list ;
  rcnn_deltas_list <- tf_split deltas num_pooled_rois_list ;
  Ok (rcnn_class_logits_list, rcnn_probs_list, rcnn_deltas_list).

End Forward.

(** What Keras documents of the layers built at lines 26-38, for a head
    with [num_classes] classes: the shape of what a layer returns.  A
    convolution with 'valid' padding and stride 1 returns [h + 1 - k]
    positions along a dimension of size [h] for a kernel of size [k], and
    none of a negative number. *)
Record layer_shapes (self : BBoxHead) (layers : head_layers) : Prop := {
  conv1_shape : ∀ x y n h w c,
    shape x = [n; h; w; c] → rcnn_class_conv1 layers x = Ok y →
    ((pool_size layers).1 ≤ h + 1)%nat ∧ ((pool_size layers).2 ≤ w + 1)%nat
    ∧ shape y = [n; h + 1 - (pool_size layers).1; w + 1 - (pool_size layers).2; 1024]%nat;
  bn1_shape : ∀ x y training,
    rcnn_class_bn1 layers x training = Ok y → shape y = shape x;
  conv2_shape : ∀ x y n h w c,
    shape x = [n; h; w; c] → rcnn_class_conv2 layers x = Ok y →
    shape y = [n; h; w; 1024%nat];
  bn2_shape : ∀ x y training,
    rcnn_class_bn2 layers x training = Ok y → shape y = shape x;
  logits_shape : ∀ x y n c,
    shape x = [n; c] → rcnn_class_logits layers x = Ok y →
    shape y = [n; num_classes self] ∧ well_formed y;
  delta_shape : ∀ x y n c,
    shape x = [n; c] → rcnn_delta_fc layers x = Ok y →
    shape y = [n; (num_classes self * 4)%nat] ∧ well_formed y
}.

(** The layers accept the tensors they were built for: pooled regions with
    [channels] channels. *)
Record layers_built (channels : nat) (layers : head_layers) : Prop := {
  conv1_returns : ∀ x n h w,
    shape x = [n; h; w; channels] →
    ((pool_size layers).1 ≤ h)%nat → ((pool_size layers).2 ≤ w)%nat →
    returns (rcnn_class_conv1 layers x);
  bn1_returns : ∀ x n h w training,
    shape x = [n; h; w; 1024%nat] → returns (rcnn_class_bn1 layers x training);
  conv2_returns : ∀ x n h w,
    shape x = [n; h; w; 1024%nat] → returns (rcnn_class_conv2 layers x);
  bn2_returns : ∀ x n h w training,
    shape x = [n; h; w; 1024%nat] → returns (rcnn_class_bn2 layers x training);
  logits_returns : ∀ x n,
    shape x = [n; 1024%nat] → returns (rcnn_class_logits layers x);
  delta_returns : ∀ x n,
    shape x = [n; 1024%nat] → returns (rcnn_delta_fc layers x)
}.

(** *** Concrete layers and inputs *)

(** Layers to run the forward pass with: convolutions whose kernel and bias
    are zero, batch normalisations that leave their input as it is, and
    dense layers with a zero kernel and the given bias. *)
Definition zeros (dims : list nat) : tensor :=
  Tensor dims (replicate (num_elements dims) 0).

Definition conv2d_zero (filters : nat) (kernel_size : nat * nat) (x : tensor)
    : result tensor :=
  match shape x with
  | [n; h; w; _] =>
      if decide (kernel_size.1 ≤ h + 1 ∧ kernel_size.2 ≤ w + 1)%nat
      then Ok (zeros [n; h + 1 - kernel_size.1; w + 1 - kernel_size.2; filters]%nat)
      else Raise InvalidArgumentError
  | _ => Raise InvalidArgumentError
  end.

Definition dense_bias (bias : list Q) (x : tensor) : result tensor :=
  match shape x with
  | [n; _] => Ok (Tensor [n; length bias] (concat (replicate n bias)))
  | _ => Raise InvalidArgumentError
  end.

Definition example_layers (pool : nat * nat) (logit_bias delta_bias : list Q)
    : head_layers := {|
  pool_size := pool;
  rcnn_class_conv1 := conv2d_zero 1024 pool;
  rcnn_class_bn1 := λ x _, Ok x;
  rcnn_class_conv2 := conv2d_zero 1024 (1%nat, 1%nat);
  rcnn_class_bn2 := λ x _, Ok x;
  rcnn_class_logits := dense_bias logit_bias;
  rcnn_delta_fc := dense_bias delta_bias
|}.

(** Two images, with two and one pooled regions of size 2 x 2 and one
    channel; two classes. *)
Definition example_inputs : list tensor :=
  [Tensor [2; 2; 2; 1]%nat (replicate 8 1); Tensor [1; 2; 2; 1]%nat (replicate 4 1)].

Definition example_head_layers : head_layers :=
  example_layers (2%nat, 2%nat) [0; 1] (replicate 8 0).

(** * Properties *)

(** ** The error monad *)

Lemma bind_Ok {A B} (m : result A) (f : A → result B) (b : B) :
  bind m f = Ok b → ∃ a, m = Ok a ∧ f a = Ok b.
Proof. destruct m as [a|e]; simpl; [eauto | discriminate]. Qed.

Ltac inv_binds H :=
  repeat (let a := fresh "a" in
          let Ha := fresh "H" a in
          apply bind_Ok in H; destruct H as (a & Ha & H)).

Lemma map_result_Forall2 {A B} (f : A → result B) (l : list A) (bs : list B) :
  map_result f l = Ok bs → Forall2 (λ a b, f a = Ok b) l bs.
Proof.
  revert bs. induction l as [|a l IH]; intros bs H; simpl in H.
  - injection H as <-. constructor.
  - inv_binds H. injection H as <-. constructor; auto.
Qed.

Lemma map_result_length {A B} (f : A → result B) (l : list A) (bs : list B) :
  map_result f l = Ok bs → length bs = length l.
Proof. intros H. apply map_result_Forall2, Forall2_length in H. done. Qed.

Lemma gather_Forall2 {A} (params : list A) (indices : list nat) (out : list A) :
  gather params indices = Ok out →
  Forall2 (λ i a, params !! i = Some a) indices out.
Proof.
  intros H. apply map_result_Forall2 in H.
  eapply Forall2_impl; [exact H|]. intros i a Hi. simpl in Hi.
  destruct (params !! i); congruence.
Qed.

Lemma gather_length {A} (params : list A) (indices : list nat) (out : list A) :
  gather params indices = Ok out → length out = length indices.
Proof. intros H. apply gather_Forall2, Forall2_length in H. auto. Qed.

(** ** [tf.where] *)

Lemma elem_of_where_from (mask : list bool) (i k : nat) :
  k ∈ where_from i mask ↔ (i ≤ k)%nat ∧ mask !! (k - i)%nat = Some true.
Proof.
  revert i. induction mask as [|b mask IH]; intros i; simpl.
  - rewrite elem_of_nil, lookup_nil. split; [done | intros [_ Hk]; discriminate].
  - assert (Hstep : k ∈ where_from (S i) mask ↔
                    (i < k)%nat ∧ (b :: mask) !! (k - i)%nat = Some true).
    { rewrite IH. split.
      - intros [Hle Hk]. split; [lia|].
        replace (k - i)%nat with (S (k - S i)) by lia. exact Hk.
      - intros [Hlt Hk]. split; [lia|].
        replace (k - i)%nat with (S (k - S i)) in Hk by lia. exact Hk. }
    destruct b.
    + rewrite elem_of_cons, Hstep. split.
      * intros [->|[Hlt Hk]]; [|split; [lia|done]].
        split; [lia|]. by rewrite Nat.sub_diag.
      * intros [Hle Hk]. destruct (decide (k = i)) as [->|Hne]; [by left|].
        right. split; [lia|done].
    + rewrite Hstep. split.
      * intros [Hlt Hk]. split; [lia|done].
      * intros [Hle Hk]. split; [|done].
        destruct (decide (k = i)) as [->|Hne]; [|lia].
        rewrite Nat.sub_diag in Hk. discriminate.
Qed.

Lemma elem_of_tf_where (mask : list bool) (k : nat) :
  k ∈ tf_where mask ↔ mask !! k = Some true.
Proof.
  unfold tf_where. rewrite elem_of_where_from, Nat.sub_0_r.
  split; [tauto | intros; split; [lia | done]].
Qed.

(** ** [tf.sets.set_intersection] *)

Lemma memb_true (i : nat) (l : list nat) : memb i l = true ↔ i ∈ l.
Proof.
  unfold memb. rewrite existsb_exists. split.
  - intros (x & Hx & Heq). apply Nat.eqb_eq in Heq. subst.
    by apply list_elem_of_In.
  - intros Hi. exists i. split; [by apply list_elem_of_In | apply Nat.eqb_refl].
Qed.

Lemma elem_of_max_list (i : nat) (l : list nat) : i ∈ l → (i ≤ max_list l)%nat.
Proof.
  induction 1 as [i l | i j l _ IH]; simpl; lia.
Qed.

Lemma elem_of_set_intersection (a b : list nat) (i : nat) :
  i ∈ set_intersection a b ↔ i ∈ a ∧ i ∈ b.
Proof.
  unfold set_intersection.
  rewrite list_elem_of_In, filter_In, andb_true_iff, !memb_true, in_seq.
  split; [tauto|]. intros [Ha Hb]. split; [|done].
  apply elem_of_max_list in Ha. lia.
Qed.

(** ** Sorting, [tf.nn.top_k] *)

Lemma insert_desc_perm {A} (x : A * Q) (l : list (A * Q)) :
  insert_desc x l ≡ₚ x :: l.
Proof.
  induction l as [|y l IH]; simpl; [done|].
  destruct (Qlt_bool x.2 y.2); [|done].
  rewrite IH. apply perm_swap.
Qed.

Lemma sort_desc_perm {A} (l : list (A * Q)) : sort_desc l ≡ₚ l.
Proof.
  induction l as [|x l IH]; simpl; [done|].
  rewrite insert_desc_perm. by rewrite IH.
Qed.

Lemma top_k_spec (values : list Q) (k : Z) (ids : list nat) :
  top_k values k = Ok ids →
  (0 ≤ k)%Z ∧ length ids = Z.to_nat k ∧ NoDup ids
  ∧ Forall (λ i, (i < length values)%nat) ids.
Proof.
  unfold top_k. intros H.
  destruct (Z.ltb_spec k 0); [discriminate|].
  destruct (Z.ltb_spec (Z.of_nat (length values)) k); [discriminate|].
  injection H as <-.
  set (sorted := sort_desc (zip (seq 0 (length values)) values)).
  assert (Hperm : sorted.*1 ≡ₚ seq 0 (length values)).
  { unfold sorted. rewrite sort_desc_perm, fst_zip; [done|].
    by rewrite length_seq. }
  split; [done|]. split; [|split].
  - rewrite length_take_le; [done|].
    rewrite Hperm, length_seq. lia.
  - eapply sublist_NoDup; [|apply sublist_take].
    rewrite Hperm. apply NoDup_seq.
  - apply Forall_forall. intros i Hi.
    apply elem_of_take in Hi as (j & Hj & _).
    apply list_elem_of_lookup_2 in Hj. rewrite Hperm in Hj.
    apply elem_of_seq in Hj. lia.
Qed.

(** ** The overlap measure *)

Lemma Qlt_bool_false (a b : Q) : Qlt_bool a b = false ↔ b <= a.
Proof.
  unfold Qlt_bool. rewrite negb_false_iff. apply Qle_bool_iff.
Qed.

Lemma Qlt_bool_true (a b : Q) : Qlt_bool a b = true ↔ a < b.
Proof.
  unfold Qlt_bool. rewrite negb_true_iff.
  destruct (Qle_bool b a) eqn:E.
  - apply Qle_bool_iff in E. split; [discriminate|]. intros Hlt.
    exfalso. apply (Qlt_irrefl a). eapply Qlt_le_trans; eauto.
  - split; [|done]. intros _. apply Qnot_le_lt. intros Hle.
    apply Qle_bool_iff in Hle. congruence.
Qed.

Lemma overlap_sym (p q r s : Q) : overlap p q r s == overlap r s p q.
Proof.
  unfold overlap.
  by rewrite (Q.min_comm (Qmax p q)), (Q.max_comm (Qmin p q)).
Qed.

Lemma intersection_area_sym (a b : box) :
  intersection_area a b == intersection_area b a.
Proof.
  unfold intersection_area.
  by rewrite (overlap_sym (y1 a)), (overlap_sym (x1 a)).
Qed.

Lemma iou_sym (a b : box) : iou a b == iou b a.
Proof.
  unfold iou. rewrite (orb_comm (Qle_bool (area b) 0)).
  destruct (Qle_bool (area a) 0 || Qle_bool (area b) 0); [reflexivity|].
  rewrite (intersection_area_sym b a).
  rewrite (Qplus_comm (area b)). reflexivity.
Qed.

(** ** Non-maximum suppression *)

Lemma elem_of_zip_seq {A} (l : list A) (p : nat) (a : A) :
  (p, a) ∈ zip (seq 0 (length l)) l → l !! p = Some a.
Proof.
  intros Hin. apply elem_of_lookup_zip_with_1 in Hin as (i & x & y & Heq & Hx & Hy).
  apply lookup_seq in Hx as [-> _]. simpl in Heq. by simplify_eq.
Qed.

Lemma existsb_false {A} (f : A → bool) (l : list A) (x : A) :
  existsb f l = false → x ∈ l → f x = false.
Proof.
  intros Hex Hin. destruct (f x) eqn:E; [|done].
  rewrite <- Hex. symmetry. apply existsb_exists.
  exists x. split; [by apply list_elem_of_In | done].
Qed.

Lemma separated_snoc (thr : Q) (sel : list (nat * box)) (c : nat * box) :
  separated thr sel →
  existsb (λ s, Qlt_bool thr (iou c.2 s.2)) sel = false →
  separated thr (sel ++ [c]).
Proof.
  intros Hsep Hex x y Hx Hy.
  apply elem_of_app in Hx as [Hx|Hx]; apply elem_of_app in Hy as [Hy|Hy].
  - by apply Hsep.
  - apply list_elem_of_singleton in Hy as ->. right.
    rewrite iou_sym. apply Qlt_bool_false.
    apply (existsb_false _ _ x Hex Hx).
  - apply list_elem_of_singleton in Hx as ->. right.
    apply Qlt_bool_false. apply (existsb_false _ _ y Hex Hy).
  - apply list_elem_of_singleton in Hx as ->.
    apply list_elem_of_singleton in Hy as ->. by left.
Qed.

Lemma nms_select_spec (thr : Q) (max_out : Z) (cands sel : list (nat * box)) :
  separated thr sel →
  ∃ rest, nms_select thr max_out cands sel = sel ++ rest
          ∧ rest `sublist_of` cands
          ∧ separated thr (sel ++ rest)
          ∧ (Z.of_nat (length (sel ++ rest)) ≤ Z.max max_out (Z.of_nat (length sel)))%Z.
Proof.
  revert sel. induction cands as [|c cands IH]; intros sel Hsep; simpl.
  - exists []. rewrite app_nil_r. repeat split; [done|done|lia].
  - destruct (Z.ltb_spec (Z.of_nat (length sel)) max_out) as [Hlt|Hge].
    + destruct (existsb _ sel) eqn:Hex.
      * destruct (IH sel Hsep) as (rest & -> & Hsub & Hsep' & Hlen).
        exists rest. repeat split; [|done|done]. by apply sublist_cons.
      * destruct (IH (sel ++ [c]) (separated_snoc _ _ _ Hsep Hex))
          as (rest & -> & Hsub & Hsep' & Hlen).
        exists (c :: rest). rewrite <- app_assoc in *. simpl in *.
        repeat split; [|done|]. { by apply sublist_skip. }
        rewrite !length_app in *. simpl in *. lia.
    + exists []. rewrite app_nil_r. repeat split; [|done|lia].
      apply sublist_nil_l.
Qed.

Lemma non_max_suppression_spec (boxes : list box) (scores : list Q)
    (max_out : Z) (thr : Q) (keep : list nat) :
  non_max_suppression boxes scores max_out thr = Ok keep →
  NoDup keep
  ∧ (∀ p, p ∈ keep → (p < length boxes)%nat)
  ∧ (∀ p q bp bq, p ∈ keep → q ∈ keep → p ≠ q →
       boxes !! p = Some bp → boxes !! q = Some bq → iou bp bq <= thr)
  ∧ (0 ≤ max_out)%Z ∧ (Z.of_nat (length keep) ≤ max_out)%Z.
Proof.
  unfold non_max_suppression. intros H.
  destruct (Nat.eqb_spec (length boxes) (length scores)) as [Hlen|]; [|discriminate].
  simpl in H. destruct (Z.ltb_spec max_out 0) as [|Hmax]; [discriminate|].
  destruct (_ || _); [discriminate|].
  injection H as <-.
  set (order := (sort_desc (zip (zip (seq 0 (length boxes)) boxes) scores)).*1).
  assert (Hperm : order ≡ₚ zip (seq 0 (length boxes)) boxes).
  { unfold order. rewrite sort_desc_perm, fst_zip; [done|].
    rewrite length_zip_with, length_seq. lia. }
  assert (Hfst : order.*1 ≡ₚ seq 0 (length boxes)).
  { rewrite Hperm, fst_zip; [done|]. by rewrite length_seq. }
  destruct (nms_select_spec thr max_out order []) as (rest & -> & Hsub & Hsep & Hcap).
  { intros x y Hx. by apply elem_of_nil in Hx. }
  simpl in *.
  assert (Hbox : ∀ x, x ∈ rest → boxes !! x.1 = Some x.2).
  { intros [p b] Hx. apply elem_of_zip_seq. rewrite <- Hperm.
    eapply elem_of_sublist; eauto. }
  split; [|split; [|split; [|split]]].
  - eapply sublist_NoDup; [|by apply fmap_sublist].
    rewrite Hfst. apply NoDup_seq.
  - intros p Hp. apply list_elem_of_fmap in Hp as (x & -> & Hx).
    apply (lookup_lt_Some _ _ _ (Hbox x Hx)).
  - intros p q bp bq Hp Hq Hne Hbp Hbq.
    apply list_elem_of_fmap in Hp as (x & -> & Hx).
    apply list_elem_of_fmap in Hq as (y & -> & Hy).
    pose proof (Hbox x Hx) as Hx'. pose proof (Hbox y Hy) as Hy'.
    destruct (Hsep x y Hx Hy) as [->|Hle]; [done|].
    by simplify_eq.
  - done.
  - rewrite length_fmap. lia.
Qed.

(** ** Suppression of one class (lines 144-156) *)

Lemma gather_elem_of {A} (params : list A) (indices : list nat) (out : list A) (a : A) :
  gather params indices = Ok out → a ∈ out →
  ∃ i, i ∈ indices ∧ params !! i = Some a.
Proof.
  intros Hg Ha. apply gather_Forall2 in Hg.
  apply list_elem_of_lookup_1 in Ha as [p Hp].
  destruct (Forall2_lookup_r _ _ _ _ _ Hg Hp) as (i & Hi & Hpi).
  exists i. split; [by eapply list_elem_of_lookup_2 | done].
Qed.

Lemma elem_of_concat {A} (x : A) (ls : list (list A)) :
  x ∈ concat ls ↔ ∃ l, x ∈ l ∧ l ∈ ls.
Proof.
  rewrite list_elem_of_In, in_concat. split.
  - intros (l & Hl & Hx). exists l. by rewrite !list_elem_of_In.
  - intros (l & Hx & Hl). exists l. by rewrite <- !list_elem_of_In.
Qed.

Section PerClass.

Context (head : BBoxHead) (keep : list nat).
Context (pre_nms_class_ids : list nat) (pre_nms_scores : list Q).
Context (pre_nms_rois : list box).

Lemma nms_keep_map_spec (class_id : nat) (out : list nat) :
  nms_keep_map head keep pre_nms_class_ids pre_nms_scores pre_nms_rois class_id
    = Ok out →
  (∀ a, a ∈ out → ∃ q, keep !! q = Some a ∧ pre_nms_class_ids !! q = Some class_id)
  ∧ (∀ a b, a ∈ out → b ∈ out → a ≠ b →
       ∃ qa qb ba bb, keep !! qa = Some a ∧ keep !! qb = Some b
         ∧ pre_nms_rois !! qa = Some ba ∧ pre_nms_rois !! qb = Some bb
         ∧ iou ba bb <= nms_threshold head).
Proof.
  unfold nms_keep_map. intros H.
  apply bind_Ok in H as (boxes & Hboxes & H).
  apply bind_Ok in H as (scores & Hscores & H).
  apply bind_Ok in H as (class_keep & Hnms & H).
  apply bind_Ok in H as (picked & Hpicked & Hout).
  set (ixs := tf_where (Nat.eqb class_id <$> pre_nms_class_ids)) in *.
  apply non_max_suppression_spec in Hnms as (_ & _ & Hsep & _).
  assert (Hchain : ∀ a, a ∈ out →
            ∃ q p, keep !! q = Some a ∧ ixs !! p = Some q ∧ p ∈ class_keep).
  { intros a Ha.
    destruct (gather_elem_of _ _ _ _ Hout Ha) as (q & Hq & Hkq).
    destruct (gather_elem_of _ _ _ _ Hpicked Hq) as (p & Hp & Hip).
    eauto. }
  split.
  - intros a Ha. destruct (Hchain a Ha) as (q & p & Hkq & Hip & _).
    exists q. split; [done|].
    apply list_elem_of_lookup_2, elem_of_tf_where in Hip.
    rewrite list_lookup_fmap in Hip.
    destruct (pre_nms_class_ids !! q) as [c|]; [|discriminate].
    simpl in Hip. injection Hip as Hip. apply Nat.eqb_eq in Hip. by subst.
  - intros a b Ha Hb Hne.
    destruct (Hchain a Ha) as (qa & pa & Hka & Hia & Hpa).
    destruct (Hchain b Hb) as (qb & pb & Hkb & Hib & Hpb).
    apply gather_Forall2 in Hboxes.
    destruct (Forall2_lookup_l _ _ _ _ _ Hboxes Hia) as (ba & Hba & Hra).
    destruct (Forall2_lookup_l _ _ _ _ _ Hboxes Hib) as (bb & Hbb & Hrb).
    exists qa, qb, ba, bb. repeat split; try done.
    apply (Hsep pa pb); try done. intros ->. congruence.
Qed.

End PerClass.

(** ** Which errors the stages raise *)






(** ** [tf.map_fn] *)

Lemma map_fn_Ok {A} (fn : A → result (list nat)) (elems : list A)
    (rows : list (list nat)) :
  map_fn fn elems = Ok rows → map_result fn elems = Ok rows.
Proof.
  unfold map_fn. intros H. apply bind_Ok in H as (rows' & Hrows & H).
  destruct rows' as [|r rest]; [by injection H as <-|].
  destruct (forallb _ _); [by injection H as <- | discriminate].
Qed.


(** ** The stack of line 159 and the intersection of line 162 *)

Lemma nms_keep_all_Ok (head : BBoxHead) (class_ids : list nat)
    (class_scores : list Q) (refined_rois : list box) (keep : list nat)
    (nms_keep : list (list nat)) :
  nms_keep_all head class_ids class_scores refined_rois keep = Ok nms_keep →
  ∃ pre_nms_class_ids pre_nms_scores pre_nms_rois,
    gather class_ids keep = Ok pre_nms_class_ids
    ∧ gather class_scores keep = Ok pre_nms_scores
    ∧ gather refined_rois keep = Ok pre_nms_rois
    ∧ map_result
        (nms_keep_map head keep pre_nms_class_ids pre_nms_scores pre_nms_rois)
        (unique pre_nms_class_ids)
      = Ok nms_keep.
Proof.
  unfold nms_keep_all. intros H.
  apply bind_Ok in H as (pcids & Hcids & H).
  apply bind_Ok in H as (pscores & Hscores & H).
  apply bind_Ok in H as (prois & Hrois & H).
  apply map_fn_Ok in H. by exists pcids, pscores, prois.
Qed.

Lemma nms_keep_all_subset (head : BBoxHead) (class_ids : list nat)
    (class_scores : list Q) (refined_rois : list box) (keep : list nat)
    (nms_keep : list (list nat)) :
  nms_keep_all head class_ids class_scores refined_rois keep = Ok nms_keep →
  concat nms_keep ⊆ keep.
Proof.
  intros H. apply nms_keep_all_Ok in H as (pcids & pscores & prois & _ & _ & _ & H).
  apply map_result_Forall2 in H.
  intros a Ha. apply elem_of_concat in Ha as (out & Hao & Hout).
  apply list_elem_of_lookup_1 in Hout as [j Hj].
  destruct (Forall2_lookup_r _ _ _ _ _ H Hj) as (c & _ & Hc).
  destruct (nms_keep_map_spec _ _ _ _ _ _ _ Hc) as [Hmem _].
  destruct (Hmem a Hao) as (q & Hq & _). by eapply list_elem_of_lookup_2.
Qed.


(** A class for every candidate: the stack of [tf.map_fn] is empty only
    when there is no candidate. *)
Lemma nms_keep_all_nil (head : BBoxHead) (class_ids : list nat)
    (class_scores : list Q) (refined_rois : list box) (keep : list nat) :
  nms_keep_all head class_ids class_scores refined_rois keep = Ok [] → keep = [].
Proof.
  intros H. apply nms_keep_all_Ok in H as (pcids & pscores & prois & Hcids & _ & _ & H).
  apply map_result_length in H. apply gather_length in Hcids.
  destruct pcids as [|c pcids]; [|discriminate].
  destruct keep; [done | discriminate].
Qed.

(** Lines 162-164 go through only for the empty stack. *)
Lemma per_class_nms_Ok (head : BBoxHead) (class_ids : list nat)
    (class_scores : list Q) (refined_rois : list box) (keep keep' : list nat) :
  per_class_nms head class_ids class_scores refined_rois keep = Ok keep' →
  keep = [] ∧ keep' = [].
Proof.
  unfold per_class_nms. intros H.
  apply bind_Ok in H as (nms_keep & Hall & H).
  destruct nms_keep as [|row nms_keep]; [|discriminate].
  apply nms_keep_all_nil in Hall as ->. by injection H as <-.
Qed.




(** ** Candidate filter (lines 128-135) *)

Lemma candidate_keep_foreground (head : BBoxHead) (class_ids : list nat)
    (class_scores : list Q) (i : nat) :
  i ∈ candidate_keep head class_ids class_scores →
  ∃ c, class_ids !! i = Some c ∧ c ≠ 0%nat.
Proof.
  unfold candidate_keep. intros Hi.
  assert (Hfg : i ∈ tf_where ((λ c, negb (Nat.eqb c 0)) <$> class_ids)).
  { destruct (truthy _); [|done].
    apply elem_of_set_intersection in Hi. tauto. }
  apply elem_of_tf_where in Hfg. rewrite list_lookup_fmap in Hfg.
  destruct (class_ids !! i) as [c|]; [|discriminate].
  exists c. split; [done|]. simpl in Hfg. injection Hfg as Hfg.
  apply negb_true_iff, Nat.eqb_neq in Hfg. done.
Qed.

(** ** Decoding and clipping (lines 119-126) *)

Lemma py_div_Ok (a b q : Q) : py_div a b = Ok q → ¬ b == 0 ∧ q = a / b.
Proof.
  unfold py_div, Qeq_zero. destruct (Qeq_bool b 0) eqn:E; [discriminate|].
  intros [= <-]. split; [|done]. by apply Qeq_bool_neq.
Qed.

Lemma refine_nonzero_shape (transforms : transforms_module) (g : namespace)
    (head : BBoxHead) (indices : list (nat * nat)) (rcnn_deltas : list (list delta))
    (rois : list box) (H W : Q) (refined : list box) :
  refine transforms g head indices rcnn_deltas rois (H, W) = Ok refined →
  ¬ H == 0 ∧ ¬ W == 0.
Proof.
  unfold refine. intros Hr.
  apply bind_Ok in Hr as (v & _ & Hr).
  apply bind_Ok in Hr as (deltas & _ & Hr).
  apply bind_Ok in Hr as (deltas_specific & _ & Hr).
  apply bind_Ok in Hr as (u & _ & Hr).
  apply bind_Ok in Hr as (decoded & _ & Hr).
  apply bind_Ok in Hr as (wy2 & Hwy & Hr).
  apply bind_Ok in Hr as (wx2 & Hwx & Hr).
  apply py_div_Ok in Hwy as [HH _]. apply py_div_Ok in Hwx as [HW _]. done.
Qed.

(** ** The whole of [_get_bboxes_single] *)

Lemma keep_top_nil (g : namespace) (class_scores : list Q) (keep' : list nat) :
  keep_top g class_scores [] = Ok keep' →
  ∃ roi_count, detection_max_instances g = Ok roi_count ∧ (0 ≤ roi_count)%Z
               ∧ keep' = [].
Proof.
  unfold keep_top. intros H.
  apply bind_Ok in H as (roi_count & Hcount & H).
  apply bind_Ok in H as (scores & Hscores & H).
  apply bind_Ok in H as (top_ids & Htop & H).
  injection Hscores as <-.
  apply top_k_spec in Htop as (Hk & Hlen & _ & _).
  cbn [length] in Hk, Hlen.
  exists roi_count. split; [done|]. split; [lia|].
  destruct top_ids; [by injection H as <-|]. simpl in Hlen. lia.
Qed.


(** A call that returns found no candidate, and returns the empty list. *)
Lemma get_bboxes_single_Ok (transforms : transforms_module) (g : namespace) (head : BBoxHead)
    (rcnn_probs : list (list Q)) (rcnn_deltas : list (list delta))
    (rois : list box) (shape : Q * Q) (dets : list detection) :
  _get_bboxes_single transforms g head rcnn_probs rcnn_deltas rois shape = Ok dets →
  ∃ class_ids indices class_scores refined_rois roi_count,
    top_classes g rcnn_probs = Ok (class_ids, indices, class_scores)
    ∧ refine transforms g head indices rcnn_deltas rois shape = Ok refined_rois
    ∧ candidate_keep head class_ids class_scores = []
    ∧ detection_max_instances g = Ok roi_count ∧ (0 ≤ roi_count)%Z
    ∧ dets = [].
Proof.
  unfold _get_bboxes_single. intros H.
  apply bind_Ok in H as ([[class_ids indices] class_scores] & Htop & H).
  apply bind_Ok in H as (refined & Hrefine & H).
  apply bind_Ok in H as (keep2 & Hnms & H).
  apply bind_Ok in H as (keep3 & Htopk & H).
  apply per_class_nms_Ok in Hnms as [Hkeep ->].
  apply keep_top_nil in Htopk as (roi_count & Hcount & Hn & ->).
  injection H as <-.
  by exists class_ids, indices, class_scores, refined, roi_count.
Qed.



(** ** Reading the two unbound names *)

Lemma module_globals_deltas : module_globals !! "deltas" = None.
Proof. reflexivity. Qed.


Lemma load_global_unbound (g : namespace) (name : string) :
  g !! name = None → load_global g name = Raise (NameError name).
Proof. unfold load_global. by intros ->. Qed.

Lemma refine_unbound (transforms : transforms_module) (g : namespace) (head : BBoxHead)
    (indices : list (nat * nat)) (rcnn_deltas : list (list delta)) (rois : list box)
    (shape : Q * Q) :
  g !! "deltas" = None →
  refine transforms g head indices rcnn_deltas rois shape = Raise (NameError "deltas").
Proof.
  intros Hg. unfold refine. destruct shape as [H W].
  by rewrite (load_global_unbound _ _ Hg).
Qed.


(** ** Lines 114-117 succeed on a tensor with at least one class column *)





(** ** The rational exponential *)

Lemma exp_horner_proper (n : nat) (k : positive) :
  Proper (Qeq ==> Qeq) (exp_horner n k).
Proof.
  revert k. induction n as [|n IH]; intros k x y Hxy; simpl; [reflexivity|].
  rewrite (IH (Pos.succ k) x y Hxy). by rewrite Hxy.
Qed.

Lemma exp_approx_proper : Proper (Qeq ==> Qeq) exp_approx.
Proof.
  intros x y Hxy. unfold exp_approx. rewrite Hxy.
  destruct (Qle_bool 0 y).
  - by apply exp_horner_proper.
  - apply Qinv_comp, exp_horner_proper. by rewrite Hxy.
Qed.

Lemma exp_approx_0 : exp_approx 0 == 1.
Proof. reflexivity. Qed.

(** ** Lines 114-126 succeed on well-formed input *)




(** ** [sort_desc] sorts *)

Lemma Forall_insert_desc {A} (P : A * Q → Prop) (x : A * Q) (l : list (A * Q)) :
  P x → Forall P l → Forall P (insert_desc x l).
Proof. intros Hx Hl. rewrite insert_desc_perm. by constructor. Qed.

Lemma insert_desc_sorted {A} (x : A * Q) (l : list (A * Q)) :
  StronglySorted (λ a b, b.2 <= a.2) l →
  StronglySorted (λ a b, b.2 <= a.2) (insert_desc x l).
Proof.
  induction 1 as [|y l Hl IH Hy]; simpl.
  - repeat constructor.
  - destruct (Qlt_bool x.2 y.2) eqn:E.
    + apply Qlt_bool_true in E. constructor; [done|].
      apply Forall_insert_desc; [by apply Qlt_le_weak | done].
    + apply Qlt_bool_false in E. constructor; [by constructor|].
      constructor; [done|].
      eapply Forall_impl; [exact Hy|]. intros z Hz. simpl in *.
      by eapply Qle_trans.
Qed.

Lemma sort_desc_sorted {A} (l : list (A * Q)) :
  StronglySorted (λ a b, b.2 <= a.2) (sort_desc l).
Proof.
  induction l as [|x l IH]; simpl; [constructor|]. by apply insert_desc_sorted.
Qed.

(** ** [tf.argmax] picks the first maximum *)

Lemma argmax_from_spec (rest pre : list Q) (best : nat) (bestv : Q) :
  pre !! best = Some bestv →
  (∀ v, v ∈ pre → v <= bestv) →
  (∀ j v, (j < best)%nat → pre !! j = Some v → v < bestv) →
  ∃ m, (pre ++ rest) !! argmax_from best bestv (length pre) rest = Some m
       ∧ (∀ v, v ∈ pre ++ rest → v <= m)
       ∧ (∀ j v, (j < argmax_from best bestv (length pre) rest)%nat →
            (pre ++ rest) !! j = Some v → v < m).
Proof.
  revert pre best bestv.
  induction rest as [|v rest IH]; intros pre best bestv Hbest Hmax Hfirst; simpl.
  - exists bestv. rewrite app_nil_r. done.
  - pose proof (lookup_lt_Some _ _ _ Hbest) as Hlt.
    replace (pre ++ v :: rest) with ((pre ++ [v]) ++ rest)
      by (by rewrite <- app_assoc).
    replace (S (length pre)) with (length (pre ++ [v]))
      by (rewrite length_app; simpl; lia).
    destruct (Qlt_bool bestv v) eqn:E.
    + apply Qlt_bool_true in E. apply IH.
      * rewrite lookup_app_r by lia. by rewrite Nat.sub_diag.
      * intros u Hu. apply elem_of_app in Hu as [Hu|Hu].
        -- apply Qlt_le_weak. eapply Qle_lt_trans; [by apply Hmax | done].
        -- apply list_elem_of_singleton in Hu as ->. apply Qle_refl.
      * intros j u Hj Hu. rewrite lookup_app_l in Hu by done.
        eapply Qle_lt_trans; [|exact E].
        apply Hmax. by eapply list_elem_of_lookup_2.
    + apply Qlt_bool_false in E. apply IH.
      * by rewrite lookup_app_l.
      * intros u Hu. apply elem_of_app in Hu as [Hu|Hu]; [by apply Hmax|].
        by apply list_elem_of_singleton in Hu as ->.
      * intros j u Hj Hu. rewrite lookup_app_l in Hu by lia. by eapply Hfirst.
Qed.

Lemma argmax_spec (row : list Q) (c : nat) :
  argmax row = Ok c →
  ∃ m, row !! c = Some m
       ∧ (∀ v, v ∈ row → v <= m)
       ∧ (∀ j v, (j < c)%nat → row !! j = Some v → v < m).
Proof.
  destruct row as [|v0 rest]; simpl; [discriminate|]. intros [= <-].
  apply (argmax_from_spec rest [v0] 0 v0).
  - done.
  - intros v Hv. apply list_elem_of_singleton in Hv as ->. apply Qle_refl.
  - intros j v Hj. lia.
Qed.

(** ** The scenario *)

Lemma top_classes_scenario :
  top_classes module_globals scenario_probs
  = Ok ([0; 1; 1]%nat, [(0, 0); (1, 1); (2, 1)]%nat, [9 # 10; 95 # 100; 9 # 10]).
Proof. reflexivity. Qed.

(** ** The confidence threshold (lines 130-135) *)






(** ** The cap of each class (lines 149-153) *)

Lemma nms_keep_map_length (head : BBoxHead) (keep : list nat)
    (pre_nms_class_ids : list nat) (pre_nms_scores : list Q)
    (pre_nms_rois : list box) (class_id : nat) (out : list nat) :
  nms_keep_map head keep pre_nms_class_ids pre_nms_scores pre_nms_rois class_id
    = Ok out →
  (0 ≤ max_instances head)%Z ∧ (Z.of_nat (length out) ≤ max_instances head)%Z.
Proof.
  unfold nms_keep_map. intros H.
  apply bind_Ok in H as (boxes & Hboxes & H).
  apply bind_Ok in H as (scores & Hscores & H).
  apply bind_Ok in H as (class_keep & Hnms & H).
  apply bind_Ok in H as (picked & Hpicked & Hout).
  apply non_max_suppression_spec in Hnms as (_ & _ & _ & Hmax & Hcap).
  split; [done|]. by rewrite (gather_length _ _ _ Hout), (gather_length _ _ _ Hpicked).
Qed.

(** ** The best candidate of a class (lines 144-156) *)

Lemma sort_desc_head_max {A} (l : list (A * Q)) (x : A * Q) (tl : list (A * Q)) :
  sort_desc l = x :: tl → ∀ y, y ∈ l → y.2 <= x.2.
Proof.
  intros E y Hy. pose proof (sort_desc_sorted l) as Hs. rewrite E in Hs.
  rewrite <- (sort_desc_perm l), E in Hy.
  apply StronglySorted_inv in Hs as [_ Hall].
  apply elem_of_cons in Hy as [->|Hy]; [apply Qle_refl|].
  exact (proj1 (Forall_forall _ _) Hall y Hy).
Qed.

Lemma nms_select_head (thr : Q) (max_out : Z) (c : nat * box)
    (cands : list (nat * box)) :
  (0 < max_out)%Z → c ∈ nms_select thr max_out (c :: cands) [].
Proof.
  intros Hmax. cbn [nms_select length existsb app].
  change (Z.of_nat 0) with 0%Z. destruct (Z.ltb_spec 0 max_out); [|lia].
  destruct (nms_select_spec thr max_out cands [c]) as (rest & -> & _).
  - intros x y Hx Hy. apply list_elem_of_singleton in Hx, Hy. left. congruence.
  - apply elem_of_app. left. by apply list_elem_of_singleton.
Qed.

Lemma non_max_suppression_best (boxes : list box) (scores : list Q)
    (max_out : Z) (thr : Q) (keep : list nat) :
  non_max_suppression boxes scores max_out thr = Ok keep →
  (0 < max_out)%Z → boxes ≠ [] →
  ∃ p sp, p ∈ keep ∧ scores !! p = Some sp ∧ ∀ v, v ∈ scores → v <= sp.
Proof.
  unfold non_max_suppression. intros H Hmax Hne.
  destruct (Nat.eqb_spec (length boxes) (length scores)) as [Hlen|]; [|discriminate].
  simpl in H. destruct (max_out <? 0)%Z; [discriminate|].
  destruct (_ || _); [discriminate|].
  injection H as <-.
  set (zipped := zip (zip (seq 0 (length boxes)) boxes) scores).
  assert (Hmem : ∀ p b s, ((p, b), s) ∈ zipped → scores !! p = Some s).
  { intros p b s Hin.
    apply elem_of_lookup_zip_with_1 in Hin as (i & [p' b'] & s' & [= -> -> ->] & Hx & Hy).
    apply lookup_zip_with_Some in Hx as (i' & b'' & [= -> ->] & Hi & _).
    apply lookup_seq in Hi as [-> _]. done. }
  destruct (sort_desc zipped) as [|[[p b] s] tl] eqn:E.
  { pose proof (sort_desc_perm zipped) as Hperm. rewrite E in Hperm.
    apply Permutation_length in Hperm. unfold zipped in Hperm.
    rewrite !length_zip_with, length_seq in Hperm. simpl in Hperm.
    destruct boxes; [done|]. cbn [length] in Hlen, Hperm. lia. }
  exists p, s. split; [|split].
  - apply list_elem_of_fmap. exists (p, b). split; [done|].
    simpl. by apply nms_select_head.
  - apply (Hmem p b s). rewrite <- (sort_desc_perm zipped), E. by left.
  - intros v Hv. apply list_elem_of_lookup_1 in Hv as [j Hj].
    destruct (lookup_lt_is_Some_2 boxes j) as [bj Hbj].
    { rewrite Hlen. by eapply lookup_lt_Some. }
    apply (sort_desc_head_max zipped _ _ E ((j, bj), v)).
    apply (list_elem_of_lookup_2 _ j), lookup_zip_with_Some.
    exists (j, bj), v. split; [done|]. split; [|done].
    apply lookup_zip_with_Some. exists j, bj. split; [done|]. split; [|done].
    apply lookup_seq. split; [done|]. by eapply lookup_lt_Some.
Qed.

Lemma nms_keep_map_best (head : BBoxHead) (keep : list nat)
    (pre_nms_class_ids : list nat) (pre_nms_scores : list Q)
    (pre_nms_rois : list box) (class_id : nat) (out : list nat) (q0 : nat) :
  nms_keep_map head keep pre_nms_class_ids pre_nms_scores pre_nms_rois class_id
    = Ok out →
  (0 < max_instances head)%Z →
  pre_nms_class_ids !! q0 = Some class_id →
  ∃ a qa sa, a ∈ out ∧ keep !! qa = Some a ∧ pre_nms_scores !! qa = Some sa
    ∧ ∀ q s, pre_nms_class_ids !! q = Some class_id →
        pre_nms_scores !! q = Some s → s <= sa.
Proof.
  unfold nms_keep_map. intros H Hmax Hq0.
  apply bind_Ok in H as (boxes & Hboxes & H).
  apply bind_Ok in H as (scores & Hscores & H).
  apply bind_Ok in H as (class_keep & Hnms & H).
  apply bind_Ok in H as (picked & Hpicked & Hout).
  set (ixs := tf_where (Nat.eqb class_id <$> pre_nms_class_ids)) in *.
  assert (Hixs : ∀ q, pre_nms_class_ids !! q = Some class_id → q ∈ ixs).
  { intros q Hq. apply elem_of_tf_where. rewrite list_lookup_fmap, Hq. simpl.
    by rewrite Nat.eqb_refl. }
  pose proof (gather_length _ _ _ Hboxes) as Lb.
  apply gather_Forall2 in Hscores, Hpicked, Hout.
  destruct (non_max_suppression_best _ _ _ _ _ Hnms Hmax) as (p & sp & Hp & Hsp & Hbest).
  { intros ->. simpl in Lb. specialize (Hixs q0 Hq0).
    destruct ixs; [by apply elem_of_nil in Hixs | discriminate]. }
  apply list_elem_of_lookup_1 in Hp as [t Ht].
  destruct (Forall2_lookup_l _ _ _ _ _ Hpicked Ht) as (qa & Hqa & Hiq).
  destruct (Forall2_lookup_l _ _ _ _ _ Hout Hqa) as (a & Ha & Hka).
  destruct (Forall2_lookup_l _ _ _ _ _ Hscores Hiq) as (sa & Hsa & Hpa).
  exists a, qa, sa. split; [by eapply list_elem_of_lookup_2|].
  split; [done|]. split; [done|].
  intros q s Hq Hs. assert (sa = sp) as -> by congruence.
  apply Hbest. apply Hixs, list_elem_of_lookup_1 in Hq as [p' Hp'].
  destruct (Forall2_lookup_l _ _ _ _ _ Hscores Hp') as (s' & Hs' & Hps').
  apply (list_elem_of_lookup_2 _ p'). congruence.
Qed.

(** ** [get_bboxes] (lines 96-101) *)

Lemma map_result_ext {A B} (f f' : A → result B) (l : list A) :
  (∀ a, a ∈ l → f a = f' a) → map_result f l = map_result f' l.
Proof.
  induction l as [|a l IH]; intros Hext; simpl; [done|].
  rewrite (Hext a) by by left.
  rewrite IH; [done|]. intros x Hx. apply Hext. by right.
Qed.

Lemma index_app_l {A} (l l' : list A) (i : nat) :
  (i < length l)%nat → index (l ++ l') i = index l i.
Proof. intros Hi. unfold index. by rewrite lookup_app_l. Qed.

(** ** [tf.split] *)

Lemma length_split_values (sizes : list nat) (row : nat) (vs : list Q) :
  length (split_values sizes row vs) = length sizes.
Proof.
  revert vs. induction sizes as [|n sizes IH]; intros vs; simpl; [done|].
  by rewrite IH.
Qed.

Lemma tf_split_spec (value : tensor) (sizes : list nat) (pieces : list tensor)
    (n : nat) (inner : list nat) :
  tf_split value sizes = Ok pieces → shape value = n :: inner →
  list_sum sizes = n
  ∧ Forall2 (λ k piece, shape piece = k :: inner) sizes pieces.
Proof.
  unfold tf_split. intros H Hs. rewrite Hs in H.
  destruct (decide (list_sum sizes = n)) as [Hsum|]; [|discriminate].
  injection H as <-. split; [done|].
  apply Forall2_same_length_lookup_2.
  - by rewrite length_zip_with, length_split_values, Nat.min_id.
  - intros i k piece Hk Hp.
    apply lookup_zip_with_Some in Hp as (k' & vs & -> & Hk' & _).
    simpl. congruence.
Qed.

(** ** [tf.nn.softmax] *)

Lemma softmax_shape (exp : Q → Q) (logits probs : tensor) :
  softmax exp logits = Ok probs → shape probs = shape logits.
Proof.
  unfold softmax. destruct (reverse _); [discriminate|]. by intros [= <-].
Qed.

(** ** [tf.concat] and the sizes of line 53 *)

Lemma first_dims (inputs : list tensor) (sizes : list nat) (h w c : nat) :
  Forall2 (λ t n, shape t = [n; h; w; c]) inputs sizes →
  map_result first_dim inputs = Ok sizes.
Proof.
  induction 1 as [|t n inputs sizes Ht _ IH]; simpl; [done|].
  unfold first_dim at 1. rewrite Ht. simpl. by rewrite IH.
Qed.

Lemma first_dims_of_shapes (inputs : list tensor) (sizes : list nat) (h w c : nat) :
  Forall2 (λ t n, shape t = [n; h; w; c]) inputs sizes →
  (λ u, hd 1%nat (shape u)) <$> inputs = sizes.
Proof.
  induction 1 as [|t n inputs sizes Ht _ IH]; [done|].
  rewrite fmap_cons, IH, Ht. done.
Qed.

Lemma tf_concat_shape (inputs : list tensor) (sizes : list nat) (h w c : nat)
    (x : tensor) :
  Forall2 (λ t n, shape t = [n; h; w; c]) inputs sizes →
  tf_concat inputs = Ok x →
  shape x = [list_sum sizes; h; w; c].
Proof.
  intros Hs H.
  destruct Hs as [|t n inputs sizes Ht Hs]; [discriminate|].
  destruct inputs as [|t' inputs].
  - apply Forall2_nil_inv_l in Hs as ->. simpl in H. injection H as <-.
    rewrite Ht. simpl. by rewrite Nat.add_0_r.
  - cbn [tf_concat] in H. destruct (forallb _ _); [|discriminate].
    injection H as <-. cbn [shape].
    assert (Hd : (λ u, hd 1%nat (shape u)) <$> t :: t' :: inputs = n :: sizes).
    { apply (first_dims_of_shapes _ _ h w c). by constructor. }
    transitivity (list_sum ((λ u, hd 1%nat (shape u)) <$> t :: t' :: inputs)
                  :: tail (shape t)); [reflexivity|].
    by rewrite Hd, Ht.
Qed.

Lemma tf_concat_returns (inputs : list tensor) (sizes : list nat) (h w c : nat) :
  Forall2 (λ t n, shape t = [n; h; w; c]) inputs sizes → inputs ≠ [] →
  returns (tf_concat inputs).
Proof.
  intros Hs Hne.
  destruct Hs as [|t n inputs sizes Ht Hs]; [done|].
  destruct Hs as [|t' n' inputs sizes Ht' Hs]; [by eexists|].
  cbn [tf_concat].
  assert (Hall : forallb (λ u, bool_decide (tail (shape u) = tail (shape t)
                           ∧ length (shape u) = length (shape t))) (t' :: inputs) = true).
  { apply forallb_forall. intros u Hu. apply bool_decide_eq_true.
    assert (∃ k, shape u = [k; h; w; c]) as [k Hk].
    { apply list_elem_of_In, elem_of_cons in Hu as [->|Hu]; [by eexists|].
      apply list_elem_of_lookup_1 in Hu as [j Hj].
      destruct (Forall2_lookup_l _ _ _ _ _ Hs Hj) as (k & _ & Hk). by eexists. }
    by rewrite Hk, Ht. }
  rewrite Hall. by eexists.
Qed.

(** ** The forward pass, step by step *)

Lemma tf_squeeze_shape (x y : tensor) (axis : nat) :
  tf_squeeze x axis = Ok y →
  shape x !! axis = Some 1%nat ∧ shape y = delete axis (shape x)
  ∧ values y = values x.
Proof.
  unfold tf_squeeze. intros H.
  destruct (shape x !! axis) as [[|[|k]]|]; try discriminate.
  by injection H as <-.
Qed.

Lemma tf_squeeze_Ok (x : tensor) (axis : nat) :
  shape x !! axis = Some 1%nat →
  tf_squeeze x axis = Ok (Tensor (delete axis (shape x)) (values x)).
Proof. unfold tf_squeeze. by intros ->. Qed.

Lemma tf_reshape_shape (x y : tensor) (n nc : nat) :
  tf_reshape x [nc; 4%nat] = Ok y → shape x = [n; (nc * 4)%nat] →
  (0 < nc)%nat ∧ shape y = [n; nc; 4%nat].
Proof.
  unfold tf_reshape. intros H Hs. rewrite Hs in H.
  cbn [num_elements foldr] in H.
  destruct (decide _) as [|Hne]; [discriminate|].
  destruct (decide _); [|discriminate].
  injection H as <-. cbn [shape]. split; [lia|].
  f_equal. replace (n * (nc * 4 * 1))%nat with (n * (nc * (4 * 1)))%nat by lia.
  apply Nat.div_mul. lia.
Qed.

Lemma tf_reshape_returns (x : tensor) (n nc : nat) :
  shape x = [n; (nc * 4)%nat] → (0 < nc)%nat → returns (tf_reshape x [nc; 4%nat]).
Proof.
  intros Hs Hnc. unfold tf_reshape. rewrite Hs. cbn [num_elements foldr].
  rewrite decide_False by lia. rewrite decide_True; [by eexists|].
  replace (n * (nc * 4 * 1))%nat with (n * (nc * (4 * 1)))%nat by lia.
  apply Nat.Div0.mod_mul.
Qed.

Lemma tf_split_returns (value : tensor) (sizes : list nat) (inner : list nat) :
  shape value = list_sum sizes :: inner → returns (tf_split value sizes).
Proof.
  intros Hs. unfold tf_split. rewrite Hs, decide_True by done. by eexists.
Qed.

Section ForwardFacts.

Context (exp : Q → Q) (layers : head_layers) (self : BBoxHead).

Hypothesis Hshapes : layer_shapes self layers.

Lemma call_inv (inputs : list tensor) (sizes : list nat) (h w c : nat)
    (training : bool) (ls ps ds : list tensor) :
  Forall2 (λ t n, shape t = [n; h; w; c]) inputs sizes →
  __call__ exp layers self inputs training = Ok (ls, ps, ds) →
  (h, w) = pool_size layers ∧ (0 < num_classes self)%nat
  ∧ ∃ logits probs deltas,
      shape logits = [list_sum sizes; num_classes self] ∧ well_formed logits
      ∧ softmax exp logits = Ok probs
      ∧ shape deltas = [list_sum sizes; num_classes self; 4%nat]
      ∧ tf_split logits sizes = Ok ls ∧ tf_split probs sizes = Ok ps
      ∧ tf_split deltas sizes = Ok ds.
Proof.
  intros Hin H. unfold __call__ in H.
  rewrite (first_dims _ _ _ _ _ Hin) in H. cbn [bind] in H.
  apply bind_Ok in H as (pooled & Hcat & H).
  apply bind_Ok in H as (x1 & Hc1 & H).
  apply bind_Ok in H as (x2 & Hb1 & H).
  apply bind_Ok in H as (x3 & Hc2 & H).
  apply bind_Ok in H as (x4 & Hb2 & H).
  apply bind_Ok in H as (x5 & Hq2 & H).
  apply bind_Ok in H as (x6 & Hq1 & H).
  apply bind_Ok in H as (logits & Hl & H).
  apply bind_Ok in H as (probs & Hp & H).
  apply bind_Ok in H as (d0 & Hd & H).
  apply bind_Ok in H as (deltas & Hr & H).
  apply bind_Ok in H as (ls' & Hls & H).
  apply bind_Ok in H as (ps' & Hps & H).
  apply bind_Ok in H as (ds' & Hds & H).
  injection H as <- <- <-.
  pose proof (tf_concat_shape _ _ _ _ _ _ Hin Hcat) as S0.
  destruct (conv1_shape _ _ Hshapes _ _ _ _ _ _ S0 Hc1) as (Hh & Hw & S1).
  pose proof (bn1_shape _ _ Hshapes _ _ _ Hb1) as S2. rewrite S1 in S2.
  pose proof (conv2_shape _ _ Hshapes (relu x2) _ _ _ _ _ S2 Hc2) as S3.
  pose proof (bn2_shape _ _ Hshapes _ _ _ Hb2) as S4. rewrite S3 in S4.
  apply tf_squeeze_shape in Hq2 as (D2 & S5 & _).
  apply tf_squeeze_shape in Hq1 as (D1 & S6 & _).
  cbn [relu shape] in D2, S5. rewrite S4 in D2, S5.
  rewrite S5 in D1, S6. cbn in D2, D1, S6.
  injection D2 as D2. injection D1 as D1.
  destruct (logits_shape _ _ Hshapes _ _ _ _ S6 Hl) as (SL & WL).
  destruct (delta_shape _ _ Hshapes _ _ _ _ S6 Hd) as (SD & _).
  destruct (tf_reshape_shape _ _ _ _ Hr SD) as (Hnc & SR).
  split; [|split; [done|]].
  - destruct (pool_size layers) as [ph pw]. simpl in *. f_equal; lia.
  - exists logits, probs, deltas. done.
Qed.

End ForwardFacts.

(** ** The example layers *)

Lemma example_layer_shapes (self : BBoxHead) (pool : nat * nat)
    (logit_bias delta_bias : list Q) :
  length logit_bias = num_classes self →
  length delta_bias = (num_classes self * 4)%nat →
  layer_shapes self (example_layers pool logit_bias delta_bias).
Proof.
  intros Hl Hd.
  assert (Hdense : ∀ bias x y n c, shape x = [n; c] → dense_bias bias x = Ok y →
            shape y = [n; length bias] ∧ well_formed y).
  { intros bias x y n c Hx Hy. unfold dense_bias in Hy. rewrite Hx in Hy.
    injection Hy as <-. split; [done|]. unfold well_formed. cbn.
    rewrite Nat.mul_1_r. clear. induction n as [|n IH]; simpl; [done|].
    rewrite length_app, IH. done. }
  assert (Hconv : ∀ filters k x y n h w c, shape x = [n; h; w; c] →
            conv2d_zero filters k x = Ok y →
            (k.1 ≤ h + 1)%nat ∧ (k.2 ≤ w + 1)%nat
            ∧ shape y = [n; h + 1 - k.1; w + 1 - k.2; filters]%nat).
  { intros filters k x y n h w c Hx Hy. unfold conv2d_zero in Hy. rewrite Hx in Hy.
    destruct (decide _) as [[? ?]|]; [|discriminate]. by injection Hy as <-. }
  split; simpl.
  - intros x y n h w c Hx Hy. by apply (Hconv _ _ _ _ _ _ _ _ Hx Hy).
  - by intros x y _ [= <-].
  - intros x y n h w c Hx Hy.
    destruct (Hconv _ _ _ _ _ _ _ _ Hx Hy) as (Hh & Hw & ->).
    cbn [fst snd] in *.
    replace (h + 1 - 1)%nat with h by lia. by replace (w + 1 - 1)%nat with w by lia.
  - by intros x y _ [= <-].
  - intros x y n c Hx Hy. rewrite <- Hl. by apply (Hdense _ _ _ _ _ Hx Hy).
  - intros x y n c Hx Hy. rewrite <- Hd. by apply (Hdense _ _ _ _ _ Hx Hy).
Qed.

Lemma example_layers_built (channels : nat) (pool : nat * nat)
    (logit_bias delta_bias : list Q) :
  layers_built channels (example_layers pool logit_bias delta_bias).
Proof.
  split; simpl.
  - intros x n h w Hx Hh Hw. unfold conv2d_zero. rewrite Hx.
    rewrite decide_True by lia. by eexists.
  - intros. by eexists.
  - intros x n h w Hx. unfold conv2d_zero. rewrite Hx.
    rewrite decide_True by (simpl; lia). by eexists.
  - intros. by eexists.
  - intros x n Hx. unfold dense_bias. rewrite Hx. by eexists.
  - intros x n Hx. unfold dense_bias. rewrite Hx. by eexists.
Qed.

(** ** Inputs that do not fit together *)

Lemma tf_concat_mismatch (t u : tensor) (rest : list tensor) :
  u ∈ rest → tail (shape u) ≠ tail (shape t) →
  tf_concat (t :: rest) = Raise InvalidArgumentError.
Proof.
  intros Hu Hne. destruct rest as [|t' rest]; [by apply elem_of_nil in Hu|].
  cbn [tf_concat].
  destruct (forallb _ (t' :: rest)) eqn:E; [|done].
  rewrite forallb_forall in E. apply list_elem_of_In, E in Hu.
  apply bool_decide_eq_true in Hu. tauto.
Qed.

(** ** The example inputs *)

Lemma example_inputs_shapes :
  Forall2 (λ t n, shape t = [n; 2; 2; 1]%nat) example_inputs [2; 1]%nat.
Proof. repeat constructor. Qed.

(** * The claims *)

(** C1 (concrete scenario: 3 regions, 2 classes, zero deltas, regions 2 and 3
    overlapping with IoU above 0.3).  No detection is returned.  In the
    module as written the call raises NameError for [deltas] at line 119,
    whatever deltas, regions, image shape and transforms it is given.
    Regions 2 and 3 of the scenario do overlap by more than 0.3.  Once
    [deltas] is bound to the delta tensor and
    [config.DETECTION_MAX_INSTANCES] to 100, the call, with the transforms
    of the spec, finds regions 2 and 3 as candidates, suppression
    (lines 139-160) keeps region 2 alone, and line 162 raises: the stack of
    [tf.map_fn] has one rank more than [keep].  On the probabilities of the
    scenario no call returns, in any namespace and with any transforms
    module. *)
Theorem concrete_scenario_decoding :
  (∀ transforms rcnn_deltas rois shape,
     _get_bboxes_single transforms module_globals (default_head 2)
       scenario_probs rcnn_deltas rois shape
     = Raise (NameError "deltas"))
  ∧ 3 # 10 < iou (Box (1 # 10) (1 # 10) (6 # 10) (6 # 10))
                 (Box (15 # 100) (1 # 10) (6 # 10) (6 # 10))
  ∧ (∃ class_ids indices class_scores refined_rois,
       top_classes scenario_globals scenario_probs
       = Ok (class_ids, indices, class_scores)
       ∧ refine (spec_transforms exp_approx) scenario_globals (default_head 2)
           indices scenario_deltas scenario_rois scenario_shape
         = Ok refined_rois
       ∧ candidate_keep (default_head 2) class_ids class_scores = [1; 2]%nat
       ∧ nms_keep_all (default_head 2) class_ids class_scores refined_rois
           [1; 2]%nat
         = Ok [[1%nat]])
  ∧ _get_bboxes_single (spec_transforms exp_approx) scenario_globals (default_head 2)
      scenario_probs scenario_deltas scenario_rois scenario_shape
    = Raise InvalidArgumentError
  ∧ (∀ transforms g rcnn_deltas rois shape,
       ¬ returns (_get_bboxes_single transforms g (default_head 2)
                    scenario_probs rcnn_deltas rois shape)).
Proof.
  split; [|split; [|split; [|split]]].
  - intros transforms rcnn_deltas rois shape. unfold _get_bboxes_single.
    rewrite top_classes_scenario. simpl.
    by rewrite (refine_unbound _ _ _ _ _ _ _ module_globals_deltas).
  - reflexivity.
  - eexists _, _, _, _. split; [reflexivity|].
    split; [vm_compute; reflexivity|]. split; vm_compute; reflexivity.
  - vm_compute. reflexivity.
  - intros transforms g rcnn_deltas rois shape [dets Hrun].
    apply get_bboxes_single_Ok in Hrun
      as (cids & ixs & scores & refined & n & Htop & _ & Hkeep & _).
    unfold top_classes in Htop.
    apply bind_Ok in Htop as (u & _ & Htop).
    vm_compute in Htop. injection Htop as <- <- <-.
    vm_compute in Hkeep. discriminate.
Qed.









(** C6 (background exclusion).  A region whose top class is the background
    is no candidate (line 129), whatever its score and the threshold, and
    no detection of a returned sequence has class id 0, in every namespace
    and for every transforms module. *)
Theorem no_background_detection :
  (∀ head class_ids class_scores i,
     class_ids !! i = Some 0%nat → i ∉ candidate_keep head class_ids class_scores)
  ∧ (∀ transforms g head rcnn_probs rcnn_deltas rois shape dets,
       _get_bboxes_single transforms g head rcnn_probs rcnn_deltas rois shape = Ok dets →
       Forall (λ d, ¬ det_class_id d == 0) dets).
Proof.
  split.
  - intros head cids scores i Hi Hin.
    apply candidate_keep_foreground in Hin as (c & Hc & Hne). congruence.
  - intros transforms g head probs rd rois shape dets Hrun.
    apply get_bboxes_single_Ok in Hrun
      as (cids & ixs & scores & refined & n & _ & _ & _ & _ & _ & ->).
    constructor.
Qed.

Lemma no_background_detection_witness :
  top_classes scenario_globals scenario_probs
  = Ok ([0; 1; 1]%nat, [(0, 0); (1, 1); (2, 1)]%nat, [9 # 10; 95 # 100; 9 # 10])
  ∧ (0%nat ∉ candidate_keep (default_head 2) [0; 1; 1]%nat
               [9 # 10; 95 # 100; 9 # 10])
  ∧ _get_bboxes_single (spec_transforms exp_approx) quiet_globals (default_head 2)
      quiet_probs quiet_deltas quiet_rois scenario_shape
    = Ok []
  ∧ Forall (λ d, ¬ det_class_id d == 0) [].
Proof.
  assert (Hrun : _get_bboxes_single (spec_transforms exp_approx) quiet_globals
            (default_head 2) quiet_probs quiet_deltas quiet_rois scenario_shape
          = Ok []) by (vm_compute; reflexivity).
  split; [reflexivity|]. split; [|split; [exact Hrun|]].
  - apply (proj1 no_background_detection). reflexivity.
  - exact (proj2 no_background_detection _ _ _ _ _ _ _ _ Hrun).
Defined.

(** C7 (zero regions).  In the module as written a call without regions
    raises NameError for [deltas]; nothing is returned.  With the two names
    bound, the transforms of the spec, a non-zero image shape and a
    non-negative [config.DETECTION_MAX_INSTANCES], the same call returns the
    empty sequence. *)
Theorem zero_regions_decoding :
  (∀ transforms head rcnn_deltas rois shape,
     _get_bboxes_single transforms module_globals head [] rcnn_deltas rois shape
     = Raise (NameError "deltas"))
  ∧ (∀ exp head deltas n rcnn_deltas H W,
       ¬ H == 0 → ¬ W == 0 → (0 ≤ n)%Z →
       _get_bboxes_single (spec_transforms exp) (with_names deltas n module_globals)
         head [] rcnn_deltas [] (H, W) = Ok []).
Proof.
  split.
  - intros transforms head rd rois shape. unfold _get_bboxes_single.
    change (top_classes module_globals [])
      with (Ok (@nil nat, @nil (nat * nat), @nil Q)). simpl.
    by rewrite (refine_unbound _ _ _ _ _ _ _ module_globals_deltas).
  - intros exp head deltas n rd H W HH HW Hn. unfold _get_bboxes_single.
    change (top_classes (with_names deltas n module_globals) [])
      with (Ok (@nil nat, @nil (nat * nat), @nil Q)).
    cbn [bind].
    assert (Href : refine (spec_transforms exp) (with_names deltas n module_globals)
                     head [] rd [] (H, W) = Ok []).
    { unfold refine.
      change (load_global (with_names deltas n module_globals) "deltas")
        with (Ok (PyTensor deltas)).
      change (load_module (with_names deltas n module_globals) "transforms"
                "detection.core.bbox.transforms") with (Ok ()).
      cbn [bind as_tensor gather_nd map_result delta2bbox bbox_clip spec_transforms
           decode_all].
      unfold py_div, Qeq_zero.
      destruct (Qeq_bool H 0) eqn:EH; [by apply Qeq_bool_eq in EH|].
      destruct (Qeq_bool W 0) eqn:EW; [by apply Qeq_bool_eq in EW|].
      reflexivity. }
    rewrite Href. cbn [bind].
    assert (candidate_keep head [] [] = []) as ->.
    { unfold candidate_keep. by destruct (truthy _). }
    change (per_class_nms head [] [] [] []) with (Ok (@nil nat)).
    cbn [bind].
    unfold keep_top.
    change (detection_max_instances (with_names deltas n module_globals))
      with (Ok n).
    cbn [bind gather map_result length].
    unfold top_k. rewrite Z.min_l by lia.
    destruct (Z.ltb_spec 0 0); [lia|]. reflexivity.
Qed.

(** C8 (suppression adds no index).  The indices that suppression keeps,
    class by class, are among the candidates it was given: every row of
    the stack [nms_keep] (lines 139-160) holds indices of [keep] only.
    Hence whatever lines 162-164 return is made of candidates; they return
    only when there is no candidate, and then nothing. *)
Theorem nms_keeps_only_candidates (head : BBoxHead) (class_ids : list nat)
    (class_scores : list Q) (refined_rois : list box) (keep : list nat)
    (nms_keep : list (list nat)) :
  nms_keep_all head class_ids class_scores refined_rois keep = Ok nms_keep →
  Forall (λ class_keep, class_keep ⊆ keep) nms_keep
  ∧ ∀ keep', per_class_nms head class_ids class_scores refined_rois keep = Ok keep' →
             keep' ⊆ keep.
Proof.
  intros Hall. split.
  - apply nms_keep_all_subset in Hall. apply Forall_forall.
    intros class_keep Hrow a Ha. apply Hall, elem_of_concat. by exists class_keep.
  - intros keep' H. apply per_class_nms_Ok in H as [_ ->].
    intros a Ha. by apply elem_of_nil in Ha.
Qed.

Lemma nms_keeps_only_candidates_witness :
  nms_keep_all (default_head 2) [0; 1; 1]%nat [9 # 10; 95 # 100; 9 # 10]
    scenario_rois [1; 2]%nat = Ok [[1%nat]]
  ∧ Forall (λ class_keep, class_keep ⊆ [1; 2]%nat) [[1%nat]]
  ∧ ∀ keep', per_class_nms (default_head 2) [0; 1; 1]%nat [9 # 10; 95 # 100; 9 # 10]
               scenario_rois [1; 2]%nat = Ok keep' →
             keep' ⊆ [1; 2]%nat.
Proof.
  assert (Hrun : nms_keep_all (default_head 2) [0; 1; 1]%nat
                   [9 # 10; 95 # 100; 9 # 10] scenario_rois [1; 2]%nat
                 = Ok [[1%nat]]) by (vm_compute; reflexivity).
  split; [exact Hrun|].
  exact (nms_keeps_only_candidates _ _ _ _ _ _ Hrun).
Defined.

(** C9 (zero delta).  With zero [target_means], the decoder of the spec
    gives a region back when the delta is all zero, whatever [target_stds];
    the exponential is assumed to respect equality of rationals and to map
    0 to 1. *)
Theorem decode_zero_delta (exp : Q → Q) (region : box) (stds : delta) :
  Proper (Qeq ==> Qeq) exp → exp 0 == 1 →
  box_eq (decode exp region zero_delta zero_delta stds) region.
Proof.
  intros Hproper Hexp0. unfold box_eq, decode, zero_delta.
  cbn [dy dx dh dw y1 x1 y2 x2].
  assert (Eh : exp (0 * dh stds + 0) == 1).
  { rewrite <- Hexp0. apply Hproper. ring. }
  assert (Ew : exp (0 * dw stds + 0) == 1).
  { rewrite <- Hexp0. apply Hproper. ring. }
  rewrite Eh, Ew. repeat split; ring.
Qed.

Lemma decode_zero_delta_witness :
  box_eq (decode exp_approx (Box (1 # 10) (1 # 10) (6 # 10) (6 # 10)) zero_delta
            zero_delta (Delta (1 # 10) (1 # 10) (2 # 10) (2 # 10)))
         (Box (1 # 10) (1 # 10) (6 # 10) (6 # 10)).
Proof.
  apply (decode_zero_delta exp_approx).
  - exact exp_approx_proper.
  - exact exp_approx_0.
Defined.



(** * Further properties *)



(** X3 (top class and score).  For every region, lines 114-117 compute the
    first index holding the largest probability of its row, and that
    probability. *)
Theorem top_class_is_first_maximum (g : namespace) (rcnn_probs : list (list Q))
    (class_ids : list nat) (indices : list (nat * nat)) (class_scores : list Q)
    (i : nat) (row : list Q) :
  top_classes g rcnn_probs = Ok (class_ids, indices, class_scores) →
  rcnn_probs !! i = Some row →
  ∃ c s, class_ids !! i = Some c ∧ class_scores !! i = Some s
         ∧ row !! c = Some s
         ∧ (∀ v, v ∈ row → v <= s)
         ∧ (∀ j v, (j < c)%nat → row !! j = Some v → v < s).
Proof.
  unfold top_classes. intros H Hrow.
  apply bind_Ok in H as (u & _ & H).
  apply bind_Ok in H as (cids & Hcids & H).
  apply bind_Ok in H as (scores & Hscores & H).
  injection H as <- <- <-.
  apply map_result_Forall2 in Hcids, Hscores.
  destruct (Forall2_lookup_l _ _ _ _ _ Hcids Hrow) as (c & Hc & Harg).
  apply argmax_spec in Harg as (m & Hm & Hmax & Hfirst).
  assert (Hix : zip (seq 0 (length rcnn_probs)) cids !! i = Some (i, c)).
  { apply lookup_zip_with_Some. exists i, c. split; [done|]. split; [|done].
    apply lookup_seq. split; [done|]. by eapply lookup_lt_Some. }
  destruct (Forall2_lookup_l _ _ _ _ _ Hscores Hix) as (s & Hs & Hget).
  simpl in Hget. rewrite Hrow in Hget. simpl in Hget. rewrite Hm in Hget.
  injection Hget as <-. by exists c, m.
Qed.

Lemma top_class_is_first_maximum_witness :
  ∃ c s, [0; 1; 1]%nat !! 1%nat = Some c
         ∧ [9 # 10; 95 # 100; 9 # 10] !! 1%nat = Some s
         ∧ [5 # 100; 95 # 100] !! c = Some s
         ∧ (∀ v, v ∈ [5 # 100; 95 # 100] → v <= s)
         ∧ (∀ j v, (j < c)%nat → [5 # 100; 95 # 100] !! j = Some v → v < s).
Proof.
  apply (top_class_is_first_maximum module_globals scenario_probs
           [0; 1; 1]%nat [(0, 0); (1, 1); (2, 1)]%nat
           [9 # 10; 95 # 100; 9 # 10] 1 [5 # 100; 95 # 100]).
  - reflexivity.
  - reflexivity.
Defined.



(** X5 (suppression of one class, lines 144-156).  What [nms_keep_map]
    returns for a class are indices of candidates of that class, at most
    [self.max_instances] of them, which is then not negative; when
    [self.max_instances] is positive and the class has a candidate, one of
    the indices returned scores at least as high as every candidate of the
    class. *)
Theorem class_keep_holds_best_candidate (head : BBoxHead) (keep : list nat)
    (pre_nms_class_ids : list nat) (pre_nms_scores : list Q)
    (pre_nms_rois : list box) (class_id : nat) (class_keep : list nat) :
  nms_keep_map head keep pre_nms_class_ids pre_nms_scores pre_nms_rois class_id
    = Ok class_keep →
  (0 ≤ max_instances head)%Z
  ∧ (Z.of_nat (length class_keep) ≤ max_instances head)%Z
  ∧ (∀ a, a ∈ class_keep →
       ∃ q, keep !! q = Some a ∧ pre_nms_class_ids !! q = Some class_id)
  ∧ ((0 < max_instances head)%Z →
     (∃ q0, pre_nms_class_ids !! q0 = Some class_id) →
     ∃ a qa sa, a ∈ class_keep ∧ keep !! qa = Some a
       ∧ pre_nms_scores !! qa = Some sa
       ∧ ∀ q s, pre_nms_class_ids !! q = Some class_id →
           pre_nms_scores !! q = Some s → s <= sa).
Proof.
  intros H.
  destruct (nms_keep_map_length _ _ _ _ _ _ _ H) as [Hmax Hcap].
  destruct (nms_keep_map_spec _ _ _ _ _ _ _ H) as [Hmem _].
  split; [done|]. split; [done|]. split; [done|].
  intros Hpos [q0 Hq0]. by eapply nms_keep_map_best.
Qed.

Lemma class_keep_holds_best_candidate_witness :
  nms_keep_map (default_head 2) [1; 2]%nat [1; 1]%nat [95 # 100; 9 # 10]
    [Box (1 # 10) (1 # 10) (6 # 10) (6 # 10);
     Box (15 # 100) (1 # 10) (6 # 10) (6 # 10)] 1
  = Ok [1%nat]
  ∧ (0 ≤ max_instances (default_head 2))%Z
  ∧ (Z.of_nat (length [1%nat]) ≤ max_instances (default_head 2))%Z
  ∧ (∀ a, a ∈ [1%nat] →
       ∃ q, [1; 2]%nat !! q = Some a ∧ [1; 1]%nat !! q = Some 1%nat)
  ∧ ((0 < max_instances (default_head 2))%Z →
     (∃ q0, [1; 1]%nat !! q0 = Some 1%nat) →
     ∃ a qa sa, a ∈ [1%nat] ∧ [1; 2]%nat !! qa = Some a
       ∧ [95 # 100; 9 # 10] !! qa = Some sa
       ∧ ∀ q s, [1; 1]%nat !! q = Some 1%nat →
           [95 # 100; 9 # 10] !! q = Some s → s <= sa).
Proof.
  assert (Hrun : nms_keep_map (default_head 2) [1; 2]%nat [1; 1]%nat
                   [95 # 100; 9 # 10]
                   [Box (1 # 10) (1 # 10) (6 # 10) (6 # 10);
                    Box (15 # 100) (1 # 10) (6 # 10) (6 # 10)] 1
                 = Ok [1%nat]) by (vm_compute; reflexivity).
  split; [exact Hrun|].
  exact (class_keep_holds_best_candidate _ _ _ _ _ _ _ Hrun).
Defined.

(** X9 (list lengths).  [get_bboxes] reads its three tensor lists at the
    indices of [img_meta_list] only: what they hold beyond the length of
    [img_meta_list] changes nothing, and no length is compared. *)
Theorem get_bboxes_reads_first_entries (transforms : transforms_module) (g : namespace)
    (head : BBoxHead)
    (rcnn_probs_list more_probs : list (list (list Q)))
    (rcnn_deltas_list more_deltas : list (list (list delta)))
    (rois_list more_rois : list (list box)) (img_meta_list : list img_meta) :
  (length img_meta_list ≤ length rcnn_probs_list)%nat →
  (length img_meta_list ≤ length rcnn_deltas_list)%nat →
  (length img_meta_list ≤ length rois_list)%nat →
  get_bboxes transforms g head (rcnn_probs_list ++ more_probs)
    (rcnn_deltas_list ++ more_deltas) (rois_list ++ more_rois) img_meta_list
  = get_bboxes transforms g head rcnn_probs_list rcnn_deltas_list rois_list
      img_meta_list.
Proof.
  intros Hp Hd Hr. unfold get_bboxes. apply map_result_ext.
  intros i Hi. apply elem_of_seq in Hi.
  rewrite !index_app_l by lia. done.
Qed.

Lemma get_bboxes_reads_first_entries_witness :
  get_bboxes (spec_transforms exp_approx) scenario_globals (default_head 2)
    ([scenario_probs] ++ [quiet_probs]) ([scenario_deltas] ++ [])
    ([scenario_rois] ++ [quiet_rois; []])
    [{| img_shape := scenario_shape |}]
  = get_bboxes (spec_transforms exp_approx) scenario_globals (default_head 2)
      [scenario_probs] [scenario_deltas] [scenario_rois]
      [{| img_shape := scenario_shape |}].
Proof.
  apply (get_bboxes_reads_first_entries (spec_transforms exp_approx) scenario_globals
           (default_head 2) [scenario_probs] [quiet_probs] [scenario_deltas] []
           [scenario_rois] [quiet_rois; []]
           [{| img_shape := scenario_shape |}]).
  - simpl. lia.
  - simpl. lia.
  - simpl. lia.
Defined.

(** X10 (image without height or width).  With an image height or width of
    zero, line 125 divides by zero: no call returns, and the call raises
    ZeroDivisionError once lines 114-122 have succeeded. *)
Theorem zero_image_dimension_raises (transforms : transforms_module) (g : namespace)
    (head : BBoxHead) (rcnn_probs : list (list Q)) (rcnn_deltas : list (list delta))
    (rois : list box) (H W : Q) :
  H == 0 ∨ W == 0 →
  ¬ returns (_get_bboxes_single transforms g head rcnn_probs rcnn_deltas rois (H, W))
  ∧ ∀ class_ids indices class_scores deltas deltas_specific decoded,
      top_classes g rcnn_probs = Ok (class_ids, indices, class_scores) →
      g !! "deltas" = Some (PyTensor deltas) →
      gather_nd deltas indices = Ok deltas_specific →
      g !! "transforms" = Some (PyModule "detection.core.bbox.transforms") →
      delta2bbox transforms rois deltas_specific (target_means head) (target_stds head)
        = Ok decoded →
      _get_bboxes_single transforms g head rcnn_probs rcnn_deltas rois (H, W)
      = Raise ZeroDivisionError.
Proof.
  intros Hzero. split.
  - intros [dets Hrun]. apply get_bboxes_single_Ok in Hrun
      as (cids & ixs & scores & refined & n & _ & Href & _).
    apply refine_nonzero_shape in Href. tauto.
  - intros cids ixs scores deltas ds decoded Htc Hg Hds Htr Hdec.
    unfold _get_bboxes_single. rewrite Htc. cbn [bind].
    unfold refine, load_module, load_global. rewrite Hg, Htr. cbn [bind as_tensor].
    rewrite Hds. cbn [bind]. rewrite decide_True by done. cbn [bind].
    rewrite Hdec. cbn [bind]. unfold py_div, Qeq_zero.
    destruct (Qeq_bool H 0) eqn:EH; [done|].
    destruct (Qeq_bool W 0) eqn:EW; [done|].
    apply Qeq_bool_neq in EH, EW. tauto.
Qed.

Lemma zero_image_dimension_raises_witness :
  _get_bboxes_single (spec_transforms exp_approx) scenario_globals (default_head 2)
    scenario_probs scenario_deltas scenario_rois (0, 640 # 1)
  = Raise ZeroDivisionError
  ∧ ¬ returns (_get_bboxes_single (spec_transforms exp_approx) scenario_globals
                 (default_head 2) scenario_probs scenario_deltas scenario_rois
                 (0, 640 # 1)).
Proof.
  split; [vm_compute; reflexivity|].
  apply (zero_image_dimension_raises (spec_transforms exp_approx) scenario_globals
           (default_head 2) scenario_probs scenario_deltas scenario_rois 0 (640 # 1)).
  left. reflexivity.
Defined.

(** X11 (forward pass, one output per image).  With layers that behave as
    Keras documents, at least one class, and pooled regions of size
    [pool_size] with the channels the layers were built for: on an empty
    list [__call__] does not return ([tf.concat] of nothing); on any other
    list it returns three lists holding, for every image, logits and
    probabilities of shape [n, num_classes] and deltas of shape
    [n, num_classes, 4], where [n] is the number of pooled regions of that
    image (lines 53-54 and 74-76). *)
Theorem call_returns_per_image (exp : Q → Q) (layers : head_layers) (self : BBoxHead)
    (channels : nat) (inputs : list tensor) (sizes : list nat) (training : bool) :
  layer_shapes self layers → layers_built channels layers →
  (0 < num_classes self)%nat →
  Forall2 (λ t n, shape t = [n; (pool_size layers).1; (pool_size layers).2; channels])
    inputs sizes →
  (inputs = [] → ¬ returns (__call__ exp layers self inputs training))
  ∧ (inputs ≠ [] →
     ∃ ls ps ds, __call__ exp layers self inputs training = Ok (ls, ps, ds)
       ∧ Forall2 (λ n l, shape l = [n; num_classes self]) sizes ls
       ∧ Forall2 (λ n p, shape p = [n; num_classes self]) sizes ps
       ∧ Forall2 (λ n d, shape d = [n; num_classes self; 4%nat]) sizes ds).
Proof.
  intros Hshapes Hbuilt Hnc Hin. split.
  { intros -> [out H]. discriminate. }
  intros Hne.
  destruct (pool_size layers) as [ph pw] eqn:Epool. cbn [fst snd] in Hin.
  unfold __call__. rewrite (first_dims _ _ _ _ _ Hin). cbn [bind].
  destruct (tf_concat_returns _ _ _ _ _ Hin Hne) as [x0 H0]. rewrite H0. cbn [bind].
  pose proof (tf_concat_shape _ _ _ _ _ _ Hin H0) as S0.
  destruct (conv1_returns _ _ Hbuilt x0 _ _ _ S0) as [x1 H1];
    [rewrite Epool; simpl; lia | rewrite Epool; simpl; lia |].
  rewrite H1. cbn [bind].
  destruct (conv1_shape _ _ Hshapes _ _ _ _ _ _ S0 H1) as (_ & _ & S1).
  rewrite Epool in S1. cbn [fst snd] in S1.
  replace (ph + 1 - ph)%nat with 1%nat in S1 by lia.
  replace (pw + 1 - pw)%nat with 1%nat in S1 by lia.
  destruct (bn1_returns _ _ Hbuilt x1 _ _ _ training S1) as [x2 H2].
  rewrite H2. cbn [bind].
  pose proof (bn1_shape _ _ Hshapes _ _ _ H2) as S2. rewrite S1 in S2.
  destruct (conv2_returns _ _ Hbuilt (relu x2) _ _ _ S2) as [x3 H3].
  rewrite H3. cbn [bind].
  pose proof (conv2_shape _ _ Hshapes (relu x2) _ _ _ _ _ S2 H3) as S3.
  destruct (bn2_returns _ _ Hbuilt x3 _ _ _ training S3) as [x4 H4].
  rewrite H4. cbn [bind].
  pose proof (bn2_shape _ _ Hshapes _ _ _ H4) as S4. rewrite S3 in S4.
  assert (S5 : shape (relu x4) = [list_sum sizes; 1; 1; 1024]%nat) by done.
  rewrite (tf_squeeze_Ok (relu x4) 2) by by rewrite S5.
  cbn [bind]. rewrite S5. cbn [delete list_delete].
  rewrite (tf_squeeze_Ok _ 1) by done.
  cbn [bind shape delete list_delete].
  set (x := {| shape := [list_sum sizes; 1024%nat]; values := _ |}).
  destruct (logits_returns _ _ Hbuilt x (list_sum sizes) eq_refl) as [logits Hl].
  rewrite Hl. cbn [bind].
  destruct (logits_shape _ _ Hshapes x logits _ _ eq_refl Hl) as (SL & WL).
  destruct (softmax exp logits) as [probs|] eqn:Hp.
  2: { unfold softmax in Hp. rewrite SL in Hp. discriminate. }
  cbn [bind].
  pose proof (softmax_shape _ _ _ Hp) as SP. rewrite SL in SP.
  destruct (delta_returns _ _ Hbuilt x (list_sum sizes) eq_refl) as [d0 Hd].
  rewrite Hd. cbn [bind].
  destruct (delta_shape _ _ Hshapes x d0 _ _ eq_refl Hd) as (SD & _).
  destruct (tf_reshape_returns d0 _ _ SD Hnc) as [deltas Hr].
  rewrite Hr. cbn [bind].
  destruct (tf_reshape_shape _ _ _ _ Hr SD) as (_ & SR).
  destruct (tf_split_returns logits sizes _ SL) as [ls Hls].
  destruct (tf_split_returns probs sizes _ SP) as [ps Hps].
  destruct (tf_split_returns deltas sizes _ SR) as [ds Hds].
  rewrite Hls, Hps, Hds. cbn [bind].
  exists ls, ps, ds. split; [done|].
  destruct (tf_split_spec _ _ _ _ _ Hls SL) as (_ & Fl).
  destruct (tf_split_spec _ _ _ _ _ Hps SP) as (_ & Fp).
  destruct (tf_split_spec _ _ _ _ _ Hds SR) as (_ & Fd).
  done.
Qed.

Lemma call_returns_per_image_witness :
  ∃ ls ps ds,
    __call__ exp_approx example_head_layers (default_head 2) example_inputs true
    = Ok (ls, ps, ds)
    ∧ Forall2 (λ n l, shape l = [n; 2%nat]) [2; 1]%nat ls
    ∧ Forall2 (λ n p, shape p = [n; 2%nat]) [2; 1]%nat ps
    ∧ Forall2 (λ n d, shape d = [n; 2%nat; 4%nat]) [2; 1]%nat ds.
Proof.
  apply (call_returns_per_image exp_approx example_head_layers (default_head 2) 1
           example_inputs [2; 1]%nat true).
  - by apply example_layer_shapes.
  - apply example_layers_built.
  - simpl. lia.
  - exact example_inputs_shapes.
  - discriminate.
Defined.

(** X14 (pooled size).  [__call__] returns only for pooled regions whose
    height and width are [pool_size]: for any other size the first
    convolution or one of the two [tf.squeeze] of line 65 fails. *)
Theorem call_needs_pooled_size (exp : Q → Q) (layers : head_layers)
    (self : BBoxHead) (inputs : list tensor) (sizes : list nat) (h w c : nat)
    (training : bool) :
  layer_shapes self layers →
  Forall2 (λ t n, shape t = [n; h; w; c]) inputs sizes →
  (h, w) ≠ pool_size layers →
  ¬ returns (__call__ exp layers self inputs training).
Proof.
  intros Hshapes Hin Hne [[[ls ps] ds] H].
  by destruct (call_inv exp layers self Hshapes _ _ _ _ _ _ _ _ _ Hin H) as (E & _).
Qed.

Lemma call_needs_pooled_size_witness :
  (∃ e, __call__ exp_approx (example_layers (7%nat, 7%nat) [0; 1] (replicate 8 0))
          (default_head 2) example_inputs true = Raise e)
  ∧ ¬ returns (__call__ exp_approx (example_layers (7%nat, 7%nat) [0; 1] (replicate 8 0))
                 (default_head 2) example_inputs true).
Proof.
  split; [eexists; vm_compute; reflexivity|].
  apply (call_needs_pooled_size exp_approx _ (default_head 2) example_inputs
           [2; 1]%nat 2 2 1 true).
  - by apply example_layer_shapes.
  - exact example_inputs_shapes.
  - discriminate.
Defined.

(** X15 (images that do not fit together).  When the tensor of some image
    differs from that of the first image in a dimension other than the
    first, [__call__] does not return: [tf.concat] refuses them
    (line 54). *)
Theorem call_needs_matching_inputs (exp : Q → Q) (layers : head_layers)
    (self : BBoxHead) (t u : tensor) (rest : list tensor) (training : bool) :
  u ∈ rest → tail (shape u) ≠ tail (shape t) →
  ¬ returns (__call__ exp layers self (t :: rest) training).
Proof.
  intros Hu Hne [out H]. unfold __call__ in H.
  apply bind_Ok in H as (sizes & _ & H).
  rewrite (tf_concat_mismatch t u rest Hu Hne) in H. discriminate.
Qed.

Lemma call_needs_matching_inputs_witness :
  ¬ returns (__call__ exp_approx example_head_layers (default_head 2)
               (Tensor [2; 2; 2; 1]%nat (replicate 8 1)
                :: [Tensor [1; 2; 2; 3]%nat (replicate 12 1)]) true).
Proof.
  apply (call_needs_matching_inputs exp_approx example_head_layers (default_head 2)
           (Tensor [2; 2; 2; 1]%nat (replicate 8 1))
           (Tensor [1; 2; 2; 3]%nat (replicate 12 1))).
  - left.
  - discriminate.
Defined.

(** X16 (a returned list is empty).  In every namespace and for every
    transforms module, when [_get_bboxes_single] returns, no region has
    passed the filters of lines 128-135 and the list returned is empty:
    with a candidate, [tf.map_fn] or line 162 raises. *)
Theorem only_empty_list_returned (transforms : transforms_module) (g : namespace)
    (head : BBoxHead) (rcnn_probs : list (list Q)) (rcnn_deltas : list (list delta))
    (rois : list box) (shape : Q * Q) (dets : list detection) :
  _get_bboxes_single transforms g head rcnn_probs rcnn_deltas rois shape = Ok dets →
  dets = []
  ∧ ∃ class_ids indices class_scores,
      top_classes g rcnn_probs = Ok (class_ids, indices, class_scores)
      ∧ candidate_keep head class_ids class_scores = [].
Proof.
  intros H. apply get_bboxes_single_Ok in H
    as (cids & ixs & scores & refined & n & Htop & _ & Hkeep & _ & _ & ->).
  split; [done|]. by exists cids, ixs, scores.
Qed.

Lemma only_empty_list_returned_witness :
  _get_bboxes_single (spec_transforms exp_approx) quiet_globals (default_head 2)
    quiet_probs quiet_deltas quiet_rois scenario_shape
  = Ok []
  ∧ ∃ class_ids indices class_scores,
      top_classes quiet_globals quiet_probs = Ok (class_ids, indices, class_scores)
      ∧ candidate_keep (default_head 2) class_ids class_scores = [].
Proof.
  assert (Hrun : _get_bboxes_single (spec_transforms exp_approx) quiet_globals
            (default_head 2) quiet_probs quiet_deltas quiet_rois scenario_shape
          = Ok []) by (vm_compute; reflexivity).
  split; [exact Hrun|].
  exact (proj2 (only_empty_list_returned _ _ _ _ _ _ _ _ Hrun)).
Defined.
